(** * Email Agent front end: the page state machine, verified

    A shallow embedding of the client logic of [src/app/page.tsx] (the
    [Home] component: identity synchronisation, step reconciliation and
    the submission handler) and of [src/app/auth/callback/page.tsx] (the
    [AuthCallbackPage] effect), with the properties of the specification
    stated and proved over it.

    Conventions.
    - JavaScript values are modelled at their declared TypeScript types:
      a [?:] field is an [option], a string-literal union is an
      inductive type, an object type is a record. [None] stands for
      [undefined] and for [null] alike, which is how the code treats them
      (it only ever applies [?.], [??] and truthiness to such values).
    - Strings are [string]s holding UTF-8 text; [trim] removes the white
      space and line terminators of ECMAScript, in their UTF-8 form.
    - The persisted store is a finite map from keys to strings; reads and
      writes of it always succeed.
    - A handler is a closure of the render that created it: what it
      reads of the state cells are the values that render showed, given
      as a parameter. Each state setter it calls is recorded with the
      state it publishes.
    - The two variants of [Home] contained in [page.tsx] have the same
      handlers, line for line; one embedding covers both. *)

From Stdlib Require Import NArith.
From stdpp Require Import base option list strings gmap fin_maps.

Open Scope string_scope.
Open Scope list_scope.

(** ** Data model *)

(** [type WorkflowStatus = "idle" | "in_progress" | "completed" | "error"] *)
Inductive WorkflowStatus : Type :=
  | idle
  | in_progress
  | completed
  | error.

(** [type WorkflowStep = { name: string; status: WorkflowStatus; detail?: string }] *)
Record WorkflowStep : Type := mkStep {
  step_name : string;
  step_status : WorkflowStatus;
  step_detail : option string
}.

(** The four icon components referred to by the template. *)
Inductive Icon : Type := MailIcon | SparkIcon | PlaneIcon | CheckIcon.

(** An element of [WORKFLOW_TEMPLATE]. *)
Record TemplateEntry : Type := mkTemplate {
  key : string;
  label : string;
  caption : string;
  icon : Icon
}.

Definition WORKFLOW_TEMPLATE : list TemplateEntry :=
  [ mkTemplate "Input" "Input" "Instruction" MailIcon;
    mkTemplate "Processing" "Processing" "AI Planning" SparkIcon;
    mkTemplate "Sending" "Sending" "SMTP Dispatch" PlaneIcon;
    mkTemplate "Completed" "Completed" "Success" CheckIcon ].

(** The object built in the [map] callback of [workflowSteps]:
    [{ ...template, status: ..., detail: ... }]. *)
Record RenderStep : Type := mkRender {
  rs_template : TemplateEntry;
  rs_status : WorkflowStatus;
  rs_detail : option string
}.

Definition rs_key (r : RenderStep) : string := key (rs_template r).
Definition rs_caption (r : RenderStep) : string := caption (rs_template r).

(** ** WorkflowReconciler *)

(** [serverSteps.find((step) => step.name === template.key)] *)
Definition find_step (serverSteps : list WorkflowStep) (template : TemplateEntry)
  : option WorkflowStep :=
  List.find (fun step => String.eqb (step_name step) (key template)) serverSteps.

(** The body of the [map] callback:
    [status: match?.status ?? "idle", detail: match?.detail]. *)
Definition merge_step (serverSteps : list WorkflowStep) (template : TemplateEntry)
  : RenderStep :=
  let match_ := find_step serverSteps template in
  {| rs_template := template;
     rs_status := default idle (step_status <$> match_);
     rs_detail := match_ ≫= step_detail |}.

(** [WORKFLOW_TEMPLATE.map((template) => ...)] *)
Definition workflowSteps (serverSteps : list WorkflowStep) : list RenderStep :=
  map (merge_step serverSteps) WORKFLOW_TEMPLATE.

(** What the timeline prints under the label: [step.detail ?? step.caption]. *)
Definition shown_detail (r : RenderStep) : string :=
  default (rs_caption r) (rs_detail r).

(** The snapshot [handleSubmit] publishes before the request is sent. *)
Definition optimistic_steps : list WorkflowStep :=
  [ mkStep "Input" completed (Some "Instruction received.");
    mkStep "Processing" in_progress None;
    mkStep "Sending" idle None;
    mkStep "Completed" idle None ].

(** ** Payloads exchanged with the remote service *)

(** [type AuthPayload]: every field optional. *)
Record AuthPayload : Type := mkAuth {
  email : option string;
  name : option string;
  picture : option string;
  id_token : option string;
  access_token : option string;
  refresh_token : option string;
  expires_in : option string
}.

(** [AgentResponse["generated_email"]], when it is an object. *)
Record EmailDraft : Type := mkDraft {
  recipient_email : string;
  recipient_name : option string;
  subject : string;
  body : string
}.

(** [type AgentResponse]. The handler guards every field it reads with
    [??], so each field may be missing. *)
Record AgentResponse : Type := mkResponse {
  resp_status : option WorkflowStatus;
  resp_message : option string;
  resp_steps : option (list WorkflowStep);
  resp_generated_email : option EmailDraft
}.

(** The JSON body of [POST /agent/run]; [JSON.stringify] leaves out the
    fields that are [undefined]. *)
Record Request : Type := mkRequest {
  req_url : string;
  req_instruction : string;
  req_user_email : option string;
  req_user_name : option string
}.

(** ** Exceptions *)

(** A thrown value, as far as [catch] looks at it:
    [error instanceof Error ? error.message : ...]. *)
Inductive Thrown : Type :=
  | JsError (message : string)
  | NonError.

Inductive outcome (A : Type) : Type :=
  | Normal (a : A)
  | Threw (e : Thrown).
Arguments Normal {A} a.
Arguments Threw {A} e.

(** What [await fetch(...)] delivers: a response, whose [json()] either
    yields the parsed body ([None] for a body that is [null]) or throws;
    or a rejection. *)
Record Response : Type := mkHttp {
  ok : bool;
  json : outcome (option AgentResponse)
}.

Inductive FetchResult : Type :=
  | Rejected (e : Thrown)
  | Resolved (response : Response).

(** ** Page state and effects *)

(** The eight [useState] cells of [Home]. *)
Record HomeState : Type := mkHome {
  instruction : string;
  serverSteps : list WorkflowStep;
  currentStatus : WorkflowStatus;
  isSubmitting : bool;
  submitError : option string;
  authError : option string;
  user : option AuthPayload;
  generatedEmail : option EmailDraft
}.

(** The initial values passed to [useState]. *)
Definition initial_home : HomeState :=
  mkHome "" [] idle false None None None None.

(** Everything a handler does to the outside, in program order. A state
    setter is recorded with the state it publishes, so that the journal
    lists every state an observer could be shown. *)
Inductive Effect : Type :=
  | SetState (s : HomeState)
  | StorageSet (k v : string)
  | ConsoleWarn (msg : string) (e : Thrown)
  | Fetch (r : Request)
  | WindowOpen (url : string)
  | PopupFocus
  | RouterReplace (path : string).

Record World : Type := mkWorld {
  home : HomeState;
  localStorage : gmap string string;
  journal : list Effect
}.

(** Handlers are computations over the world that may throw; what was
    done before a throw stays done. *)
Definition M (A : Type) : Type := World -> outcome A * World.

#[global] Instance M_ret : MRet M := fun A a w => (Normal a, w).

#[global] Instance M_bind : MBind M := fun A B k m w =>
  match m w with
  | (Normal a, w') => k a w'
  | (Threw e, w') => (Threw e, w')
  end.

Definition throw {A : Type} (e : Thrown) : M A := fun w => (Threw e, w).

(** Lifts a call of the platform that returns or throws. *)
Definition lift {A : Type} (o : outcome A) : M A := fun w => (o, w).

(** [try { body } catch (error) { handler }] *)
Definition try_catch {A : Type} (body : M A) (handler : Thrown -> M A) : M A :=
  fun w =>
    match body w with
    | (Normal a, w') => (Normal a, w')
    | (Threw e, w') => handler e w'
    end.

(** [try { body } finally { cleanup }] *)
Definition try_finally {A : Type} (body : M A) (cleanup : M unit) : M A :=
  fun w =>
    match body w with
    | (o, w') =>
        match cleanup w' with
        | (Normal _, w'') => (o, w'')
        | (Threw e, w'') => (Threw e, w'')
        end
    end.

Definition emit (e : Effect) : M unit := fun w =>
  (Normal tt, mkWorld (home w) (localStorage w) (journal w ++ [e])).

(** The values the state cells hold. A handler sees them only through
    the render that created it, see [handleSubmit_begin_in]. *)
Definition get_home : M HomeState := fun w => (Normal (home w), w).

Definition set_home (f : HomeState -> HomeState) : M unit := fun w =>
  let s := f (home w) in
  (Normal tt, mkWorld s (localStorage w) (journal w ++ [SetState s])).

Definition setInstruction (v : string) : M unit :=
  set_home (fun s => mkHome v (serverSteps s) (currentStatus s) (isSubmitting s)
                            (submitError s) (authError s) (user s) (generatedEmail s)).
Definition setServerSteps (v : list WorkflowStep) : M unit :=
  set_home (fun s => mkHome (instruction s) v (currentStatus s) (isSubmitting s)
                            (submitError s) (authError s) (user s) (generatedEmail s)).
Definition setCurrentStatus (v : WorkflowStatus) : M unit :=
  set_home (fun s => mkHome (instruction s) (serverSteps s) v (isSubmitting s)
                            (submitError s) (authError s) (user s) (generatedEmail s)).
Definition setIsSubmitting (v : bool) : M unit :=
  set_home (fun s => mkHome (instruction s) (serverSteps s) (currentStatus s) v
                            (submitError s) (authError s) (user s) (generatedEmail s)).
Definition setSubmitError (v : option string) : M unit :=
  set_home (fun s => mkHome (instruction s) (serverSteps s) (currentStatus s) (isSubmitting s)
                            v (authError s) (user s) (generatedEmail s)).
Definition setAuthError (v : option string) : M unit :=
  set_home (fun s => mkHome (instruction s) (serverSteps s) (currentStatus s) (isSubmitting s)
                            (submitError s) v (user s) (generatedEmail s)).
Definition setUser (v : option AuthPayload) : M unit :=
  set_home (fun s => mkHome (instruction s) (serverSteps s) (currentStatus s) (isSubmitting s)
                            (submitError s) (authError s) v (generatedEmail s)).
Definition setGeneratedEmail (v : option EmailDraft) : M unit :=
  set_home (fun s => mkHome (instruction s) (serverSteps s) (currentStatus s) (isSubmitting s)
                            (submitError s) (authError s) (user s) v).

(** [window.localStorage.getItem(k)] and [setItem(k, v)] *)
Definition getItem (k : string) : M (option string) := fun w =>
  (Normal (localStorage w !! k), w).

Definition setItem (k v : string) : M unit := fun w =>
  (Normal tt, mkWorld (home w) (<[k := v]> (localStorage w)) (journal w ++ [StorageSet k v])).

Definition console_warn (msg : string) (e : Thrown) : M unit := emit (ConsoleWarn msg e).

Definition router_replace (path : string) : M unit := emit (RouterReplace path).

(** ** JavaScript helpers *)

(** Truthiness of a [string | null | undefined]. *)
Definition truthy (s : option string) : bool :=
  match s with
  | Some s => negb (String.eqb s "")
  | None => false
  end.

(** [parsed?.email] as a condition. *)
Definition has_email (p : option AuthPayload) : bool := truthy (p ≫= email).

(** The code points [String.prototype.trim] removes: WhiteSpace and
    LineTerminator of ECMAScript. *)
Definition js_white_space (cp : N) : bool :=
  ((9 <=? cp) && (cp <=? 13) || (cp =? 32) || (cp =? 160) || (cp =? 5760) ||
   (8192 <=? cp) && (cp <=? 8202) || (cp =? 8232) || (cp =? 8233) ||
   (cp =? 8239) || (cp =? 8287) || (cp =? 12288) || (cp =? 65279))%N.

(** The UTF-8 encoding of a code point. *)
Definition utf8_encode (cp : N) : list Ascii.ascii :=
  (if cp <? 128 then [Ascii.ascii_of_N cp]
   else if cp <? 2048 then
     [Ascii.ascii_of_N (192 + cp / 64); Ascii.ascii_of_N (128 + cp mod 64)]
   else if cp <? 65536 then
     [Ascii.ascii_of_N (224 + cp / 4096);
      Ascii.ascii_of_N (128 + (cp / 64) mod 64);
      Ascii.ascii_of_N (128 + cp mod 64)]
   else
     [Ascii.ascii_of_N (240 + cp / 262144);
      Ascii.ascii_of_N (128 + (cp / 4096) mod 64);
      Ascii.ascii_of_N (128 + (cp / 64) mod 64);
      Ascii.ascii_of_N (128 + cp mod 64)])%N.

Definition utf8_string (cps : list N) : string :=
  String.string_of_list_ascii (flat_map utf8_encode cps).

(** The code point of a sequence of one, two or three bytes. *)
Definition utf8_code_point (bytes : list Ascii.ascii) : N :=
  (match map Ascii.N_of_ascii bytes with
   | [a] => a
   | [a; b] => (a - 192) * 64 + (b - 128)
   | [a; b; c] => (a - 224) * 4096 + (b - 128) * 64 + (c - 128)
   | _ => 0
   end)%N.

(** White space in one, two and three bytes of UTF-8. *)
Definition space1 (c1 : Ascii.ascii) : bool :=
  let a := Ascii.N_of_ascii c1 in
  ((9 <=? a) && (a <=? 13) || (a =? 32))%N.

Definition space2 (c1 c2 : Ascii.ascii) : bool :=
  ((Ascii.N_of_ascii c1 =? 194) && (Ascii.N_of_ascii c2 =? 160))%N.

Definition space3 (c1 c2 c3 : Ascii.ascii) : bool :=
  let a := Ascii.N_of_ascii c1 in
  let b := Ascii.N_of_ascii c2 in
  let c := Ascii.N_of_ascii c3 in
  ((a =? 225) && (b =? 154) && (c =? 128) ||
   (a =? 226) && (b =? 128) &&
     ((128 <=? c) && (c <=? 138) || (c =? 168) || (c =? 169) || (c =? 175)) ||
   (a =? 226) && (b =? 129) && (c =? 159) ||
   (a =? 227) && (b =? 128) && (c =? 128) ||
   (a =? 239) && (b =? 187) && (c =? 191))%N.

(** The text without the white space it starts with. *)
Fixpoint drop_spaces (l : list Ascii.ascii) : list Ascii.ascii :=
  match l with
  | [] => []
  | c1 :: l1 =>
      if space1 c1 then drop_spaces l1
      else match l1 with
           | [] => l
           | c2 :: l2 =>
               if space2 c1 c2 then drop_spaces l2
               else match l2 with
                    | [] => l
                    | c3 :: l3 => if space3 c1 c2 c3 then drop_spaces l3 else l
                    end
           end
  end.

(** The text without the white space it ends with: it is cut where
    only white space follows. *)
Fixpoint drop_trailing_spaces (l : list Ascii.ascii) : list Ascii.ascii :=
  match l with
  | [] => []
  | c :: l' =>
      match drop_spaces l with
      | [] => []
      | _ :: _ => c :: drop_trailing_spaces l'
      end
  end.

(** [String.prototype.trim] *)
Definition trim (s : string) : string :=
  String.string_of_list_ascii
    (drop_trailing_spaces (drop_spaces (String.list_ascii_of_string s))).

(** One white-space character at the head of the text, if any: what
    follows it. *)
Definition space_token (l : list Ascii.ascii) : option (list Ascii.ascii) :=
  match l with
  | [] => None
  | c1 :: l1 =>
      if space1 c1 then Some l1
      else match l1 with
           | [] => None
           | c2 :: l2 =>
               if space2 c1 c2 then Some l2
               else match l2 with
                    | [] => None
                    | c3 :: l3 => if space3 c1 c2 c3 then Some l3 else None
                    end
           end
  end.

(** [s.replace(/\/$/, "")]: one slash at the very end is removed. *)
Definition strip_trailing_slash (s : string) : string :=
  match rev (String.list_ascii_of_string s) with
  | c :: l => if (Ascii.nat_of_ascii c =? 47)%nat then String.string_of_list_ascii (rev l) else s
  | [] => s
  end.

Definition AUTH_STORAGE_KEY : string := "email-agent-auth".

(** The message of the [TypeError] raised by reading [data.steps] when
    [data] is [null] (the wording is the engine's; nothing below depends
    on it). *)
Definition null_steps_message : string :=
  "Cannot read properties of null (reading 'steps')".

Definition generic_failure : string := "Unable to process automation request.".

(** [error instanceof Error ? error.message : "Unexpected error"] *)
Definition catch_message (e : Thrown) : string :=
  match e with
  | JsError m => m
  | NonError => "Unexpected error"
  end.

(** ** A concrete platform for examples

    The handlers below take the configuration and the JSON codec of the
    browser as parameters. These definitions give them concrete values on
    the few inputs the examples use. *)

Definition dquote : string := String (Ascii.ascii_of_nat 34) EmptyString.

Definition quoted (s : string) : string := dquote +:+ s +:+ dquote.

(** One [key:value] member, for a value that needs no escaping. *)
Definition json_member (k : string) (v : option string) : list string :=
  match v with
  | Some v => [quoted k +:+ ":" +:+ quoted v]
  | None => []
  end.

Fixpoint join_comma (l : list string) : string :=
  match l with
  | [] => ""
  | [x] => x
  | x :: l' => x +:+ "," +:+ join_comma l'
  end.

Definition sample_stringify (p : option AuthPayload) : string :=
  match p with
  | None => "null"
  | Some p =>
      "{" +:+ join_comma
        (json_member "email" (email p) ++ json_member "name" (name p) ++
         json_member "picture" (picture p) ++ json_member "id_token" (id_token p) ++
         json_member "access_token" (access_token p) ++
         json_member "refresh_token" (refresh_token p) ++
         json_member "expires_in" (expires_in p)) +:+ "}"
  end.

Definition no_fields : AuthPayload := mkAuth None None None None None None None.

Definition alice : AuthPayload :=
  mkAuth (Some "alice@example.com") (Some "Alice") None None None None None.

Definition bob : AuthPayload :=
  mkAuth (Some "bob@example.com") None None None None None None.

Definition blank_email : AuthPayload :=
  mkAuth (Some "") (Some "Nobody") None None None None None.

(** [JSON.parse] on the texts of the examples: the serialisations of the
    payloads above, [{}] and [null]; the other texts the examples use
    are not JSON, and are rejected with a [SyntaxError]. *)
Definition sample_parse (s : string) : outcome (option AuthPayload) :=
  if String.eqb s (sample_stringify (Some alice)) then Normal (Some alice)
  else if String.eqb s (sample_stringify (Some bob)) then Normal (Some bob)
  else if String.eqb s (sample_stringify (Some blank_email)) then Normal (Some blank_email)
  else if String.eqb s "{}" then Normal (Some no_fields)
  else if String.eqb s "null" then Normal None
  else Threw (JsError "Unexpected token in JSON").

(** [new URL(u).origin] for a [u] that is an origin already, with or
    without the final slash. *)
Definition sample_origin (u : string) : string := strip_trailing_slash u.

Definition empty_world : World := mkWorld initial_home ∅ [].

(** The page after the user typed [text]. *)
Definition typed (text : string) : World :=
  mkWorld (mkHome text [] idle false None None None None) ∅ [].

(** The instruction of the scenarios of the specification. *)
Definition welcome : string := "Send a welcome email to john@example.com".

(** A 2xx body: every stage completed, with a draft. *)
Definition completed_body : AgentResponse :=
  mkResponse (Some completed) (Some "Email sent.")
    (Some [ mkStep "Input" completed None; mkStep "Processing" completed None;
            mkStep "Sending" completed None; mkStep "Completed" completed None ])
    (Some (mkDraft "john@example.com" None "Welcome!" "Hi John")).

(** The steps of a body that reports a failed dispatch. *)
Definition refused_steps : list WorkflowStep :=
  [ mkStep "Input" completed None;
    mkStep "Processing" completed None;
    mkStep "Sending" error (Some "SMTP refused the recipient") ].

(** A non-2xx body carrying a message and those steps. *)
Definition refused_body : AgentResponse :=
  mkResponse (Some error) (Some "Recipient rejected") (Some refused_steps) None.

(** A page on which alice is connected. *)
Definition alice_world : World :=
  mkWorld (mkHome "" [] idle false None None (Some alice) None)
          {[ AUTH_STORAGE_KEY := sample_stringify (Some alice) ]} [].

(** A page whose store holds [raw] under the session key. *)
Definition stored_world (raw : string) : World :=
  mkWorld initial_home {[ AUTH_STORAGE_KEY := raw ]} [].

(** The requests of a journal, in the order they were sent. *)
Definition fetches (j : list Effect) : list Request :=
  omap (fun e => match e with Fetch r => Some r | _ => None end) j.

(** The states a journal published, in order. *)
Definition published (j : list Effect) : list HomeState :=
  omap (fun e => match e with SetState s => Some s | _ => None end) j.

(** The writes to the persisted store of a journal, in order. *)
Definition writes (j : list Effect) : list (string * string) :=
  omap (fun e => match e with StorageSet k v => Some (k, v) | _ => None end) j.

(** The warnings a journal logged, in order. *)
Definition warnings (j : list Effect) : list string :=
  omap (fun e => match e with ConsoleWarn msg _ => Some msg | _ => None end) j.

(** ** What the page renders from the state *)

(** [disabled={isSubmitting || !instruction.trim()}] of the submit
    button. *)
Definition submit_disabled (s : HomeState) : bool :=
  isSubmitting s || negb (truthy (Some (trim (instruction s)))).

(** The text of the connect button:
    [user?.email ? `Connected as ${user.name ?? user.email}` : "Connect with Google"]. *)
Definition connect_label (u : option AuthPayload) : string :=
  match u with
  | Some p =>
      match email p with
      | Some e =>
          if negb (String.eqb e "") then
            "Connected as " +:+ default e (name p)
          else "Connect with Google"
      | None => "Connect with Google"
      end
  | None => "Connect with Google"
  end.

Definition is_newline (c : Ascii.ascii) : bool := (Ascii.nat_of_ascii c =? 10)%nat.

(** [body.split("\n")]: the pieces between line feeds, in order; a text
    without line feed, the empty one included, is one piece. *)
Fixpoint split_lines (body : string) : list string :=
  match body with
  | EmptyString => [EmptyString]
  | String c rest =>
      if is_newline c then EmptyString :: split_lines rest
      else match split_lines rest with
           | line :: lines => String c line :: lines
           | [] => [String c EmptyString]
           end
  end.

(** [lines.join("\n")] *)
Fixpoint join_lines (lines : list string) : string :=
  match lines with
  | [] => EmptyString
  | [line] => line
  | line :: rest => line +:+ String (Ascii.ascii_of_nat 10) (join_lines rest)
  end.

(** ** The theme of the second variant of [Home] *)

(** [useState<"light" | "dark">] *)
Inductive Theme : Type := light | dark.

Definition theme_name (t : Theme) : string :=
  match t with
  | light => "light"
  | dark => "dark"
  end.

Definition THEME_STORAGE_KEY : string := "email-agent-theme".

(** The theme cell, [document.body.dataset.theme] and the persisted
    store. *)
Record ThemePage : Type := mkThemePage {
  theme : Theme;
  body_theme : option string;
  theme_store : gmap string string
}.

(** The first effect: the stored theme if it is one of the two names,
    else the preference of the system ([prefersDark] is
    [matchMedia("(prefers-color-scheme: dark)").matches]). *)
Definition theme_init_effect (prefersDark : bool) (p : ThemePage) : ThemePage :=
  let stored := theme_store p !! THEME_STORAGE_KEY in
  let initialTheme :=
    if bool_decide (stored = Some "light") then light
    else if bool_decide (stored = Some "dark") then dark
    else if prefersDark then dark else light in
  mkThemePage initialTheme (Some (theme_name initialTheme)) (theme_store p).

(** The second effect, run for every value of [theme]. *)
Definition theme_persist_effect (p : ThemePage) : ThemePage :=
  mkThemePage (theme p) (Some (theme_name (theme p)))
    (<[THEME_STORAGE_KEY := theme_name (theme p)]> (theme_store p)).

(** [setTheme((prev) => (prev === "light" ? "dark" : "light"))] *)
Definition toggleTheme (p : ThemePage) : ThemePage :=
  mkThemePage (match theme p with light => dark | dark => light end)
              (body_theme p) (theme_store p).

(** ** The handlers of [Home] and of [AuthCallbackPage] *)

Section Page.

(** [process.env.NEXT_PUBLIC_API_BASE_URL] *)
Variable NEXT_PUBLIC_API_BASE_URL : option string.
(** [(u) => new URL(u).origin] *)
Variable URL_origin : string -> string.
(** [JSON.parse], at the type the code casts its result to; [None] is a
    parsed value without fields ([null], a number, ...). *)
Variable JSON_parse : string -> outcome (option AuthPayload).
(** [JSON.stringify] *)
Variable JSON_stringify : option AuthPayload -> string.

Definition API_BASE_URL : string :=
  default "http://localhost:8000" NEXT_PUBLIC_API_BASE_URL.

Definition apiOrigin : string := URL_origin API_BASE_URL.

(** *** AuthSessionSync *)

Definition restoreFromStorage : M unit :=
  try_catch
    (stored ← getItem AUTH_STORAGE_KEY;
     if truthy stored then
       parsed ← lift (JSON_parse (default "" stored));
       if has_email parsed then setUser parsed else mret tt
     else mret tt)
    (fun e => console_warn "Failed to parse stored auth" e).

(** [event.origin] and [event.data] of the [MessageEvent]. *)
Definition messageHandler (event_origin : string) (event_data : option AuthPayload)
  : M unit :=
  if negb (String.eqb event_origin apiOrigin) || negb (has_email event_data) then
    mret tt
  else
    setUser event_data;;
    setItem AUTH_STORAGE_KEY (JSON_stringify event_data);;
    setAuthError None.

(** [event.key] and [event.newValue] of the [StorageEvent]; both may be
    [null]. *)
Definition storageHandler (event_key event_newValue : option string) : M unit :=
  if bool_decide (event_key = Some AUTH_STORAGE_KEY) && truthy event_newValue then
    try_catch
      (parsed ← lift (JSON_parse (default "" event_newValue));
       if has_email parsed then setUser parsed else mret tt)
      (fun e => console_warn "Failed to parse auth payload from storage" e)
  else mret tt.

(** [popup_opened] tells whether [window.open] returned a window. *)
Definition handleGoogleConnect (popup_opened : bool) : M unit :=
  emit (WindowOpen (strip_trailing_slash API_BASE_URL +:+ "/auth/google/login"));;
  if negb popup_opened then
    setAuthError (Some "Please allow pop-ups to connect your Google account.")
  else emit PopupFocus.

(** The operations of the identity component, as events of the page. *)
Inductive AuthEvent : Type :=
  | OnLoad
  | Message (event_origin : string) (event_data : option AuthPayload)
  | StorageChange (event_key event_newValue : option string)
  | Connect (popup_opened : bool).

Definition auth_handler (ev : AuthEvent) : M unit :=
  match ev with
  | OnLoad => restoreFromStorage
  | Message o d => messageHandler o d
  | StorageChange k v => storageHandler k v
  | Connect b => handleGoogleConnect b
  end.

(** The world after a sequence of identity events. A handler that threw
    would stop only itself, the page goes on with the next event. *)
Definition auth_run (evs : list AuthEvent) (w : World) : World :=
  fold_left (fun w ev => (auth_handler ev w).2) evs w.

(** *** SubmissionController *)

(** [handleSubmit] up to the first [await], as the closure created by
    the render that showed [rendered]: the guard and the request read
    [instruction], [isSubmitting] and [user] of that render, whatever
    the state cells hold by now. Then the optimistic updates and the
    call of [fetch]. Returns the request that is now pending, if any. *)
Definition handleSubmit_begin_in (rendered : HomeState) : M (option Request) :=
  if negb (truthy (Some (trim (instruction rendered)))) || isSubmitting rendered then
    mret None
  else
    setIsSubmitting true;;
    setSubmitError None;;
    setGeneratedEmail None;;
    setCurrentStatus in_progress;;
    setServerSteps optimistic_steps;;
    let request :=
      mkRequest (strip_trailing_slash API_BASE_URL +:+ "/agent/run")
                (instruction rendered) (user rendered ≫= email) (user rendered ≫= name) in
    emit (Fetch request);;
    mret (Some request).

(** The same on a page that has rendered its current state: the
    closure is the one of the state the cells hold. *)
Definition handleSubmit_begin : M (option Request) :=
  s ← get_home;
  handleSubmit_begin_in s.

(** [handleSubmit] from the first [await] on, given what [fetch]
    delivered: the rest of the [try] block, [catch] and [finally]. *)
Definition handleSubmit_settle (result : FetchResult) : M unit :=
  try_finally
    (try_catch
       (response ← match result with
                   | Rejected e => throw e
                   | Resolved response => mret response
                   end;
        data ← lift (json response);
        if negb (ok response) then
          throw (JsError (default generic_failure (data ≫= resp_message)))
        else
          d ← match data with
              | Some d => mret d
              | None => throw (JsError null_steps_message)
              end;
          setServerSteps (default [] (resp_steps d));;
          setCurrentStatus (default error (resp_status d));;
          setGeneratedEmail (resp_generated_email d);;
          setInstruction "")
       (fun e =>
          let message := catch_message e in
          setSubmitError (Some message);;
          setCurrentStatus error))
    (setIsSubmitting false).

(** One whole call of [handleSubmit], with the remote service given as a
    function of the request. *)
Definition handleSubmit (service : Request -> FetchResult) : M unit :=
  pending ← handleSubmit_begin;
  match pending with
  | Some request => handleSubmit_settle (service request)
  | None => mret tt
  end.

(** *** AuthCallbackPage *)

(** The effect of the callback page; [payload] is
    [searchParams.get("payload")]. *)
Definition AuthCallbackPage_effect (payload : option string) : M unit :=
  (if truthy payload then
     try_catch
       (parsed ← lift (JSON_parse (default "" payload));
        if has_email parsed then
          setItem AUTH_STORAGE_KEY (JSON_stringify parsed)
        else mret tt)
       (fun e => console_warn "Unable to restore authentication payload" e)
   else mret tt);;
  router_replace "/".
(** [handleKeyDown]: Enter calls [preventDefault] and [handleSubmit].
    The result tells whether the default action was prevented, with the
    request now pending, if any. *)
Definition handleKeyDown (event_key : string) : M (bool * option Request) :=
  if String.eqb event_key "Enter" then
    pending ← handleSubmit_begin;
    mret (true, pending)
  else mret (false, None).

(** *** The page as a machine *)

(** What can happen to the page: the user edits the input
    ([onChange]), asks to submit (button or Enter), the answer to a
    pending request arrives, an identity event occurs, or the page
    renders the state its cells hold, which creates the handlers
    anew. *)
Inductive PageEvent : Type :=
  | Typed (text : string)
  | Submit
  | Arrived (result : FetchResult)
  | Identity (ev : AuthEvent)
  | Rendered.

(** The world, the state the last render showed (the one the handlers
    on the page have closed over), and the number of calls of
    [handleSubmit] that wait at their [await]. *)
Record Page : Type := mkPage {
  world : World;
  shown : HomeState;
  in_flight : nat
}.

Definition page_step (p : Page) (ev : PageEvent) : Page :=
  match ev with
  | Typed text => mkPage (setInstruction text (world p)).2 (shown p) (in_flight p)
  | Submit =>
      match handleSubmit_begin_in (shown p) (world p) with
      | (Normal (Some _), w) => mkPage w (shown p) (S (in_flight p))
      | (_, w) => mkPage w (shown p) (in_flight p)
      end
  | Arrived result =>
      match in_flight p with
      | O => p
      | S n => mkPage (handleSubmit_settle result (world p)).2 (shown p) n
      end
  | Identity ev => mkPage (auth_handler ev (world p)).2 (shown p) (in_flight p)
  | Rendered => mkPage (world p) (home (world p)) (in_flight p)
  end.

Definition page_run (evs : list PageEvent) (p : Page) : Page :=
  fold_left page_step evs p.

(** The number of answers among the events. *)
Fixpoint arrivals (evs : list PageEvent) : nat :=
  match evs with
  | [] => 0
  | Arrived _ :: evs' => S (arrivals evs')
  | _ :: evs' => arrivals evs'
  end.

(** Whether every submit request of the events comes right after a
    render, so that the handler it calls has closed over the state the
    cells hold; [fresh] tells whether the page has just rendered. *)
Fixpoint submits_after_render (fresh : bool) (evs : list PageEvent) : bool :=
  match evs with
  | [] => true
  | Rendered :: evs' => submits_after_render true evs'
  | Submit :: evs' => fresh && submits_after_render false evs'
  | _ :: evs' => submits_after_render false evs'
  end.

(** The page when it is loaded, with whatever the store holds. *)
Definition loaded (store : gmap string string) : Page :=
  mkPage (mkWorld initial_home store []) initial_home 0.

(** The request [handleSubmit] sends from state [s]. *)
Definition request_of (s : HomeState) : Request :=
  mkRequest (strip_trailing_slash API_BASE_URL +:+ "/agent/run")
            (instruction s) (user s ≫= email) (user s ≫= name).

(** The world an accepted submission leaves when it reaches [await]. *)
Definition begun (w : World) : World :=
  let s := home w in
  let s1 := mkHome (instruction s) (serverSteps s) (currentStatus s) true
                   (submitError s) (authError s) (user s) (generatedEmail s) in
  let s2 := mkHome (instruction s) (serverSteps s) (currentStatus s) true
                   None (authError s) (user s) (generatedEmail s) in
  let s3 := mkHome (instruction s) (serverSteps s) (currentStatus s) true
                   None (authError s) (user s) None in
  let s4 := mkHome (instruction s) (serverSteps s) in_progress true
                   None (authError s) (user s) None in
  let s5 := mkHome (instruction s) optimistic_steps in_progress true
                   None (authError s) (user s) None in
  mkWorld s5 (localStorage w)
    (journal w ++
     [SetState s1; SetState s2; SetState s3; SetState s4; SetState s5;
      Fetch (request_of s)]).

(** The world after [catch] and [finally] ran with error text [m]. *)
Definition failed (m : string) (w : World) : World :=
  let s := home w in
  let s1 := mkHome (instruction s) (serverSteps s) (currentStatus s) (isSubmitting s)
                   (Some m) (authError s) (user s) (generatedEmail s) in
  let s2 := mkHome (instruction s) (serverSteps s) error (isSubmitting s)
                   (Some m) (authError s) (user s) (generatedEmail s) in
  let s3 := mkHome (instruction s) (serverSteps s) error false
                   (Some m) (authError s) (user s) (generatedEmail s) in
  mkWorld s3 (localStorage w) (journal w ++ [SetState s1; SetState s2; SetState s3]).

(** The world after the success branch and [finally] ran on body [d]. *)
Definition succeeded (d : AgentResponse) (w : World) : World :=
  let s := home w in
  let steps := default [] (resp_steps d) in
  let status := default error (resp_status d) in
  let s1 := mkHome (instruction s) steps (currentStatus s) (isSubmitting s)
                   (submitError s) (authError s) (user s) (generatedEmail s) in
  let s2 := mkHome (instruction s) steps status (isSubmitting s)
                   (submitError s) (authError s) (user s) (generatedEmail s) in
  let s3 := mkHome (instruction s) steps status (isSubmitting s)
                   (submitError s) (authError s) (user s) (resp_generated_email d) in
  let s4 := mkHome "" steps status (isSubmitting s)
                   (submitError s) (authError s) (user s) (resp_generated_email d) in
  let s5 := mkHome "" steps status false
                   (submitError s) (authError s) (user s) (resp_generated_email d) in
  mkWorld s5 (localStorage w)
    (journal w ++ [SetState s1; SetState s2; SetState s3; SetState s4; SetState s5]).

(** What a render step looks like when the server said nothing of it. *)
Definition idle_step (t : TemplateEntry) : RenderStep := mkRender t idle None.

(** The world after [setUser(p)]. *)
Definition with_user (p : option AuthPayload) (w : World) : World :=
  let s := home w in
  let s1 := mkHome (instruction s) (serverSteps s) (currentStatus s) (isSubmitting s)
                   (submitError s) (authError s) p (generatedEmail s) in
  mkWorld s1 (localStorage w) (journal w ++ [SetState s1]).

(** The world after [console.warn(msg, e)]. *)
Definition warned (msg : string) (e : Thrown) (w : World) : World :=
  mkWorld (home w) (localStorage w) (journal w ++ [ConsoleWarn msg e]).

(** An identity: a payload with a non-empty email. *)
Definition identified (u : option AuthPayload) : Prop :=
  exists p s, u = Some p /\ email p = Some s /\ s <> "".

(** Splits boolean facts about byte codes into their cases. *)
Ltac break_bool :=
  repeat match goal with
         | H : (_ || _) = true |- _ => apply orb_true_iff in H as [H | H]
         | H : (_ && _) = true |- _ => apply andb_true_iff in H as [? ?]
         | H : (Ascii.N_of_ascii _ =? _)%N = true |- _ =>
             apply N.eqb_eq in H; apply (f_equal Ascii.ascii_of_N) in H;
             rewrite Ascii.ascii_N_embedding in H; subst
         | H : (_ <=? _)%N = true |- _ => apply N.leb_le in H
         end.

(** Unfolds the handlers and the operations of [M]. *)
Ltac run_M :=
  unfold handleSubmit, handleSubmit_begin, handleSubmit_begin_in, handleSubmit_settle,
    restoreFromStorage, messageHandler, storageHandler, handleGoogleConnect,
    AuthCallbackPage_effect,
    setInstruction, setServerSteps, setCurrentStatus, setIsSubmitting,
    setSubmitError, setAuthError, setUser, setGeneratedEmail,
    getItem, setItem, console_warn, router_replace, get_home, set_home, emit,
    try_finally, try_catch, throw, lift, mbind, mret, M_bind, M_ret;
  simpl.

(** ** Reconciliation: shape of the result *)

Lemma find_step_None (S : list WorkflowStep) (t : TemplateEntry) :
  find_step S t = None <-> Forall (fun s => step_name s <> key t) S.
Proof.
  unfold find_step. induction S as [|s S IH]; simpl.
  - split; [constructor | reflexivity].
  - destruct (String.eqb_spec (step_name s) (key t)) as [E|E].
    + split; [discriminate | intros H; inversion H; contradiction].
    + rewrite IH. split; [intros H; constructor; assumption | intros H; inversion H; assumption].
Qed.

Lemma find_step_Some (S : list WorkflowStep) (t : TemplateEntry) (m : WorkflowStep) :
  find_step S t = Some m ->
  exists before after : list WorkflowStep,
    S = (before ++ m :: after)%list /\ step_name m = key t /\
    Forall (fun s => step_name s <> key t) before.
Proof.
  unfold find_step. induction S as [|s S IH]; simpl; [discriminate|].
  destruct (String.eqb_spec (step_name s) (key t)) as [E|E].
  - intros [= <-]. exists [], S. repeat split; [assumption | constructor].
  - intros H. destruct (IH H) as (b & a & -> & Hk & Hb).
    exists (s :: b), a. repeat split; [assumption | constructor; assumption].
Qed.

(** C1. Reconciliation is a total function of the server step list; for
    every list, of any length and content, it yields exactly four render
    steps, and their keys are Input, Processing, Sending, Completed in
    that order (each render step carrying its own template entry). *)
Theorem workflowSteps_four_in_template_order (S : list WorkflowStep) :
  length (workflowSteps S) = 4 /\
  map rs_key (workflowSteps S) = ["Input"; "Processing"; "Sending"; "Completed"] /\
  map rs_template (workflowSteps S) = WORKFLOW_TEMPLATE.
Proof.
  unfold workflowSteps. repeat split.
Qed.

Lemma find_step_first (before after : list WorkflowStep) (m : WorkflowStep)
    (t : TemplateEntry) :
  step_name m = key t ->
  Forall (fun s => step_name s <> key t) before ->
  find_step (before ++ m :: after) t = Some m.
Proof.
  intros Hm Hb. unfold find_step.
  induction Hb as [|s before Hs _ IH]; simpl.
  - rewrite Hm, String.eqb_refl. reflexivity.
  - apply String.eqb_neq in Hs. rewrite Hs. exact IH.
Qed.

(** C8, as the code has it. With no step of the entry's name in [S] the
    render step is idle and shows the caption. Otherwise status and
    detail are those of the first step of that name, and the caption is
    shown when that step has no detail. So "idle, showing the caption"
    holds exactly when there is no such step or the first one is itself
    idle with no detail (or with the caption as its detail). *)
Theorem merge_step_fallback (S : list WorkflowStep) (t : TemplateEntry) :
  (Forall (fun s => step_name s <> key t) S ->
     rs_status (merge_step S t) = idle /\
     rs_detail (merge_step S t) = None /\
     shown_detail (merge_step S t) = caption t) /\
  (forall (before after : list WorkflowStep) (m : WorkflowStep),
     S = before ++ m :: after -> step_name m = key t ->
     Forall (fun s => step_name s <> key t) before ->
     rs_status (merge_step S t) = step_status m /\
     rs_detail (merge_step S t) = step_detail m /\
     shown_detail (merge_step S t) = default (caption t) (step_detail m)) /\
  (rs_status (merge_step S t) = idle /\ shown_detail (merge_step S t) = caption t
   <->
   Forall (fun s => step_name s <> key t) S \/
   exists m, find_step S t = Some m /\ step_status m = idle /\
             (step_detail m = None \/ step_detail m = Some (caption t))).
Proof.
  split; [|split].
  - intros H. apply find_step_None in H.
    unfold shown_detail, merge_step, rs_caption. rewrite H. simpl. auto.
  - intros before after m -> Hm Hb.
    unfold shown_detail, merge_step, rs_caption.
    rewrite (find_step_first before after m t Hm Hb). simpl. auto.
  - unfold shown_detail, merge_step, rs_caption. simpl.
    destruct (find_step S t) as [m|] eqn:E; simpl.
    + split.
      * intros [Hs Hd]. right. exists m. repeat split; [assumption|].
        destruct (step_detail m) as [d|]; simpl in Hd; [right; congruence | left; reflexivity].
      * intros [H | (m' & [= <-] & Hs & Hd)].
        -- apply find_step_None in H. congruence.
        -- split; [assumption|]. destruct Hd as [-> | ->]; reflexivity.
    + split; [|auto]. intros _. left. apply find_step_None. exact E.
Qed.

(** The optimistic snapshot and the entry Sending: a step of that name
    is present, and the render step is idle and shows the caption. *)
Lemma merge_step_fallback_witness :
  rs_status (merge_step optimistic_steps (mkTemplate "Sending" "Sending" "SMTP Dispatch" PlaneIcon))
    = step_status (mkStep "Sending" idle None) /\
  rs_status (merge_step [] (mkTemplate "Input" "Input" "Instruction" MailIcon)) = idle.
Proof.
  split.
  - refine (proj1 (proj1 (proj2 (merge_step_fallback optimistic_steps
             (mkTemplate "Sending" "Sending" "SMTP Dispatch" PlaneIcon)))
             [mkStep "Input" completed (Some "Instruction received.");
              mkStep "Processing" in_progress None]
             [mkStep "Completed" idle None]
             (mkStep "Sending" idle None) _ _ _)).
    + reflexivity.
    + reflexivity.
    + repeat constructor; discriminate.
  - apply (proj1 (merge_step_fallback [] (mkTemplate "Input" "Input" "Instruction" MailIcon))).
    constructor.
Defined.

(** C8 as the specification words it fails: the optimistic snapshot has
    a step named Sending, yet the Sending render step is idle and shows
    the caption. *)
Lemma idle_caption_with_matching_step :
  ~ (forall (S : list WorkflowStep) (t : TemplateEntry),
       In t WORKFLOW_TEMPLATE ->
       (rs_status (merge_step S t) = idle /\ shown_detail (merge_step S t) = caption t
        <-> Forall (fun s => step_name s <> key t) S)).
Proof.
  intros H.
  specialize (H optimistic_steps (mkTemplate "Sending" "Sending" "SMTP Dispatch" PlaneIcon)).
  destruct H as [H _]; [simpl; auto|].
  specialize (H (conj eq_refl eq_refl)).
  do 2 (apply Forall_inv_tail in H). apply Forall_inv in H. simpl in H. congruence.
Qed.

(** ** Submission: the guard *)

Lemma truthy_Some (s : string) : truthy (Some s) = false <-> s = "".
Proof.
  simpl. destruct (String.eqb_spec s ""); simpl; split; congruence.
Qed.

Lemma has_email_true (d : option AuthPayload) :
  has_email d = true <-> exists p s, d = Some p /\ email p = Some s /\ s <> "".
Proof.
  unfold has_email. split.
  - destruct d as [p|]; simpl; [|discriminate].
    destruct (email p) as [s|] eqn:E; simpl; [|discriminate].
    destruct (String.eqb_spec s ""); simpl; [discriminate|].
    intros _. exists p, s. auto.
  - intros (p & s & -> & E & Hs). simpl. rewrite E. simpl.
    apply String.eqb_neq in Hs. rewrite Hs. reflexivity.
Qed.

(** The guard of [handleSubmit] as a condition on the state. *)
Lemma guard_rejects (s : HomeState) :
  negb (truthy (Some (trim (instruction s)))) || isSubmitting s = true
  <-> trim (instruction s) = "" \/ isSubmitting s = true.
Proof.
  rewrite orb_true_iff, negb_true_iff, truthy_Some. reflexivity.
Qed.

Lemma guard_accepts (s : HomeState) :
  negb (truthy (Some (trim (instruction s)))) || isSubmitting s = false
  <-> trim (instruction s) <> "" /\ isSubmitting s = false.
Proof.
  rewrite orb_false_iff, negb_false_iff. simpl. rewrite negb_true_iff.
  rewrite String.eqb_neq. reflexivity.
Qed.

Lemma handleSubmit_begin_eq (w : World) :
  handleSubmit_begin w =
  if negb (truthy (Some (trim (instruction (home w))))) || isSubmitting (home w)
  then (Normal None, w)
  else (Normal (Some (request_of (home w))), begun w).
Proof.
  unfold handleSubmit_begin.
  unfold mbind at 1. unfold M_bind at 1. unfold get_home. cbv beta iota.
  unfold handleSubmit_begin_in.
  destruct (negb (truthy (Some (trim (instruction (home w))))) || isSubmitting (home w)).
  - reflexivity.
  - run_M. unfold begun, request_of. simpl. rewrite <- !app_assoc. reflexivity.
Qed.

Lemma begin_in_home (w : World) :
  handleSubmit_begin_in (home w) w = handleSubmit_begin w.
Proof. reflexivity. Qed.

Lemma begin_in_rejected (rendered : HomeState) (w : World) :
  trim (instruction rendered) = "" \/ isSubmitting rendered = true ->
  handleSubmit_begin_in rendered w = (Normal None, w).
Proof.
  intros H. apply guard_rejects in H. unfold handleSubmit_begin_in.
  rewrite H. reflexivity.
Qed.

Lemma begin_rejected (w : World) :
  trim (instruction (home w)) = "" \/ isSubmitting (home w) = true ->
  handleSubmit_begin w = (Normal None, w).
Proof.
  intros H. apply guard_rejects in H. rewrite handleSubmit_begin_eq, H. reflexivity.
Qed.

Lemma begin_accepted (w : World) :
  trim (instruction (home w)) <> "" -> isSubmitting (home w) = false ->
  handleSubmit_begin w = (Normal (Some (request_of (home w))), begun w).
Proof.
  intros H1 H2. pose proof (proj2 (guard_accepts (home w)) (conj H1 H2)) as H.
  rewrite handleSubmit_begin_eq, H. reflexivity.
Qed.

Lemma fetches_app (j1 j2 : list Effect) :
  fetches (j1 ++ j2) = fetches j1 ++ fetches j2.
Proof. apply omap_app. Qed.


Lemma writes_app (j1 j2 : list Effect) :
  writes (j1 ++ j2) = writes j1 ++ writes j2.
Proof. apply omap_app. Qed.

(** C2, as the code has it. The guard of [handleSubmit] reads the
    state its render showed. A call from a render that showed an
    instruction trimming to the empty string, or a submission in
    flight, returns without any effect: the world (state cells, store,
    journal of effects) is the one before the call, so no request is
    sent and [currentStatus] keeps its value. When the page renders
    between two calls, the second call is always such a no-op, and the
    two calls, the first one accepted, send exactly one request. *)
Theorem handleSubmit_guard_on_render (rendered : HomeState) (w : World) :
  (trim (instruction rendered) = "" \/ isSubmitting rendered = true ->
     handleSubmit_begin_in rendered w = (Normal None, w) /\
     currentStatus (home (handleSubmit_begin_in rendered w).2) = currentStatus (home w) /\
     fetches (journal (handleSubmit_begin_in rendered w).2) = fetches (journal w)) /\
  (let w1 := (handleSubmit_begin_in (home w) w).2 in
     handleSubmit_begin_in (home w1) w1 = (Normal None, w1)) /\
  (trim (instruction (home w)) <> "" -> isSubmitting (home w) = false ->
     let w1 := (handleSubmit_begin_in (home w) w).2 in
     let w2 := (handleSubmit_begin_in (home w1) w1).2 in
     isSubmitting (home w1) = true /\
     fetches (journal w2) = fetches (journal w) ++ [request_of (home w)]).
Proof.
  split; [|split].
  - intros H. rewrite (begin_in_rejected rendered w H). auto.
  - cbv zeta. rewrite !begin_in_home.
    destruct (negb (truthy (Some (trim (instruction (home w))))) || isSubmitting (home w))
      eqn:G.
    + apply guard_rejects in G. rewrite (begin_rejected w G). simpl.
      apply begin_in_rejected. exact G.
    + apply guard_accepts in G. destruct G as [G1 G2].
      rewrite (begin_accepted w G1 G2). simpl.
      apply begin_in_rejected. right. reflexivity.
  - intros G1 G2. cbv zeta. rewrite (begin_in_home w), (begin_accepted w G1 G2).
    unfold snd at 1 2 3. split; [reflexivity|].
    rewrite begin_in_rejected by (right; reflexivity). simpl.
    rewrite fetches_app. reflexivity.
Qed.

(** ** Submission: settling the request *)

Lemma handleSubmit_settle_eq (result : FetchResult) (w : World) :
  handleSubmit_settle result w =
  (Normal tt,
   match result with
   | Rejected e => failed (catch_message e) w
   | Resolved (mkHttp _ (Threw e)) => failed (catch_message e) w
   | Resolved (mkHttp false (Normal data)) =>
       failed (default generic_failure (data ≫= resp_message)) w
   | Resolved (mkHttp true (Normal None)) => failed null_steps_message w
   | Resolved (mkHttp true (Normal (Some d))) => succeeded d w
   end).
Proof.
  destruct result as [e | [[] [[d|] | e]]];
    run_M; unfold failed, succeeded; simpl; rewrite <- ?app_assoc; reflexivity.
Qed.

(** C5. An accepted call of submit, before it waits for the network:
    it locks ([isSubmitting] true), clears the error and the draft, sets
    the status to in_progress and publishes the optimistic snapshot,
    leaving the other cells alone, and only then sends its one request
    (every state update precedes the [fetch] in the journal). When the
    transport then fails, the step list is still that snapshot, the
    status is error and the lock is released. *)
Theorem handleSubmit_optimistic (w : World) :
  trim (instruction (home w)) <> "" -> isSubmitting (home w) = false ->
  let w1 := (handleSubmit_begin w).2 in
  (handleSubmit_begin w).1 = Normal (Some (request_of (home w))) /\
  home w1 = mkHome (instruction (home w)) optimistic_steps in_progress true
                   None (authError (home w)) (user (home w)) None /\
  serverSteps (home w1) =
    [ mkStep "Input" completed (Some "Instruction received.");
      mkStep "Processing" in_progress None;
      mkStep "Sending" idle None;
      mkStep "Completed" idle None ] /\
  (exists updates,
     journal w1 = journal w ++ updates ++ [Fetch (request_of (home w))] /\
     fetches updates = [] /\
     last (published updates) = Some (home w1)) /\
  (forall e : Thrown,
     let w2 := (handleSubmit_settle (Rejected e) w1).2 in
     serverSteps (home w2) = optimistic_steps /\
     currentStatus (home w2) = error /\
     submitError (home w2) = Some (catch_message e) /\
     isSubmitting (home w2) = false).
Proof.
  intros G1 G2. rewrite (begin_accepted w G1 G2). simpl.
  repeat split.
  eexists [_; _; _; _; _]. repeat split.
Qed.

Lemma handleSubmit_accepted (service : Request -> FetchResult) (w : World) :
  trim (instruction (home w)) <> "" -> isSubmitting (home w) = false ->
  handleSubmit service w =
  handleSubmit_settle (service (request_of (home w))) (begun w).
Proof.
  intros G1 G2. unfold handleSubmit, mbind, M_bind.
  rewrite (begin_accepted w G1 G2). reflexivity.
Qed.

(** C3, as the code has it. On a 2xx response whose body is a JSON
    object, whatever the state before: the step list becomes the list
    of the body (the empty list when the body has none), with nothing
    of the previous list kept; the status becomes the one of the body;
    the draft becomes the one of the body, or null when the body has
    none; the instruction is cleared, the lock released, and the other
    cells keep their values. With [steps: []] the timeline is four idle
    steps showing their captions. A 2xx response whose body is [null]
    or does not parse is handled by [catch] instead: the error text is
    set, the status is error, the lock is released, and the step list,
    the draft and the instruction stay as they were. *)
Theorem handleSubmit_success (d : AgentResponse) (w : World) :
  let r := handleSubmit_settle (Resolved (mkHttp true (Normal (Some d)))) w in
  r.1 = Normal tt /\
  home r.2 = mkHome "" (default [] (resp_steps d)) (default error (resp_status d)) false
                    (submitError (home w)) (authError (home w)) (user (home w))
                    (resp_generated_email d) /\
  (forall steps, resp_steps d = Some steps -> serverSteps (home r.2) = steps) /\
  (forall status, resp_status d = Some status -> currentStatus (home r.2) = status) /\
  (forall draft, resp_generated_email d = Some draft ->
     generatedEmail (home r.2) = Some draft) /\
  (resp_generated_email d = None -> generatedEmail (home r.2) = None) /\
  (resp_steps d = Some [] ->
     workflowSteps (serverSteps (home r.2)) = map idle_step WORKFLOW_TEMPLATE /\
     map shown_detail (workflowSteps (serverSteps (home r.2))) =
       map caption WORKFLOW_TEMPLATE) /\
  home (handleSubmit_settle (Resolved (mkHttp true (Normal None))) w).2 =
    mkHome (instruction (home w)) (serverSteps (home w)) error false
           (Some null_steps_message) (authError (home w)) (user (home w))
           (generatedEmail (home w)) /\
  (forall e : Thrown,
     home (handleSubmit_settle (Resolved (mkHttp true (Threw e))) w).2 =
       mkHome (instruction (home w)) (serverSteps (home w)) error false
              (Some (catch_message e)) (authError (home w)) (user (home w))
              (generatedEmail (home w))).
Proof.
  cbv zeta. rewrite !handleSubmit_settle_eq. simpl.
  split; [reflexivity|]. split; [reflexivity|].
  split; [intros steps ->; reflexivity|].
  split; [intros status ->; reflexivity|].
  split; [intros draft ->; reflexivity|].
  split; [intros ->; reflexivity|].
  split; [intros H; rewrite H; split; reflexivity|].
  split; [reflexivity|].
  intros e. rewrite ?handleSubmit_settle_eq. reflexivity.
Qed.

(** C4, as the code has it. On a non-2xx response whose body parses:
    the error text is the [message] of the body, or the generic text
    when the body has none (or is null); the status is error; the lock
    is released; and the step list is the one from before the response,
    whatever steps the body carries, which for a whole call of submit is
    the optimistic snapshot. When the body does not parse, the error
    text is that of the exception instead. *)
Theorem handleSubmit_nonsuccess (data : option AgentResponse) (w : World) :
  let r := handleSubmit_settle (Resolved (mkHttp false (Normal data))) w in
  (r.1 = Normal tt /\
   home r.2 = mkHome (instruction (home w)) (serverSteps (home w)) error false
                     (Some (default generic_failure (data ≫= resp_message)))
                     (authError (home w)) (user (home w)) (generatedEmail (home w))) /\
  (forall d m, data = Some d -> resp_message d = Some m ->
     submitError (home r.2) = Some m) /\
  ((forall d, data = Some d -> resp_message d = None) ->
     submitError (home r.2) = Some generic_failure) /\
  (trim (instruction (home w)) <> "" -> isSubmitting (home w) = false ->
     let final := (handleSubmit (fun _ => Resolved (mkHttp false (Normal data))) w).2 in
     serverSteps (home final) = optimistic_steps /\
     currentStatus (home final) = error /\
     submitError (home final) = Some (default generic_failure (data ≫= resp_message)) /\
     isSubmitting (home final) = false) /\
  (forall e : Thrown,
     let r' := handleSubmit_settle (Resolved (mkHttp false (Threw e))) w in
     submitError (home r'.2) = Some (catch_message e) /\
     currentStatus (home r'.2) = error /\
     serverSteps (home r'.2) = serverSteps (home w)).
Proof.
  cbv zeta. rewrite handleSubmit_settle_eq. simpl.
  split; [auto|]. split; [|split; [|split]].
  - intros d m -> Hm. simpl. rewrite Hm. reflexivity.
  - intros H. destruct data as [d|]; simpl; [|reflexivity].
    rewrite (H d eq_refl). reflexivity.
  - intros G1 G2.
    rewrite (handleSubmit_accepted _ w G1 G2), handleSubmit_settle_eq. simpl. auto.
  - intros e. rewrite ?handleSubmit_settle_eq. simpl. auto.
Qed.


(** ** Identity synchronisation *)

Lemma messageHandler_eq (o : string) (d : option AuthPayload) (w : World) :
  messageHandler o d w =
  if negb (String.eqb o apiOrigin) || negb (has_email d) then (Normal tt, w)
  else
    let s := home w in
    let s1 := mkHome (instruction s) (serverSteps s) (currentStatus s) (isSubmitting s)
                     (submitError s) (authError s) d (generatedEmail s) in
    let s2 := mkHome (instruction s) (serverSteps s) (currentStatus s) (isSubmitting s)
                     (submitError s) None d (generatedEmail s) in
    (Normal tt,
     mkWorld s2 (<[AUTH_STORAGE_KEY := JSON_stringify d]> (localStorage w))
       (journal w ++
        [SetState s1; StorageSet AUTH_STORAGE_KEY (JSON_stringify d); SetState s2])).
Proof.
  unfold messageHandler.
  destruct (negb (String.eqb o apiOrigin) || negb (has_email d)).
  - reflexivity.
  - run_M. rewrite <- !app_assoc. reflexivity.
Qed.

Lemma message_condition (o : string) (d : option AuthPayload) :
  negb (String.eqb o apiOrigin) || negb (has_email d) = false
  <-> o = apiOrigin /\ exists p s, d = Some p /\ email p = Some s /\ s <> "".
Proof.
  rewrite orb_false_iff, !negb_false_iff, String.eqb_eq, has_email_true.
  reflexivity.
Qed.

(** C7. A cross-context message has an effect exactly when its origin
    is the origin of the remote service and its payload has a non-empty
    email. Then the payload becomes the identity, its serialisation is
    written to the store under the session key, and the authentication
    error is cleared, in that order, the rest being untouched. In every
    other case the world stays as it was; in particular after a message
    from another origin the identity, the store and the authentication
    error are unchanged. The handler never throws. *)
Theorem messageHandler_accepts_iff (o : string) (d : option AuthPayload) (w : World) :
  let r := messageHandler o d w in
  r.1 = Normal tt /\
  (journal r.2 <> journal w
   <-> o = apiOrigin /\ exists p s, d = Some p /\ email p = Some s /\ s <> "") /\
  (o = apiOrigin -> (exists p s, d = Some p /\ email p = Some s /\ s <> "") ->
     user (home r.2) = d /\
     authError (home r.2) = None /\
     localStorage r.2 = <[AUTH_STORAGE_KEY := JSON_stringify d]> (localStorage w) /\
     localStorage r.2 !! AUTH_STORAGE_KEY = Some (JSON_stringify d) /\
     writes (journal r.2) = writes (journal w) ++ [(AUTH_STORAGE_KEY, JSON_stringify d)] /\
     home r.2 = mkHome (instruction (home w)) (serverSteps (home w))
                       (currentStatus (home w)) (isSubmitting (home w))
                       (submitError (home w)) None d (generatedEmail (home w))) /\
  (~ (o = apiOrigin /\ exists p s, d = Some p /\ email p = Some s /\ s <> "") ->
     r.2 = w) /\
  (o <> apiOrigin ->
     user (home r.2) = user (home w) /\
     localStorage r.2 = localStorage w /\
     authError (home r.2) = authError (home w)).
Proof.
  cbv zeta. rewrite messageHandler_eq.
  destruct (negb (String.eqb o apiOrigin) || negb (has_email d)) eqn:C.
  - assert (N : ~ (o = apiOrigin /\ exists p s, d = Some p /\ email p = Some s /\ s <> "")).
    { intros H. apply message_condition in H. congruence. }
    simpl. split; [reflexivity|]. split; [|split; [|split]].
    + split; [congruence | intros H; contradiction].
    + intros Ho Hd. exfalso. apply N. auto.
    + reflexivity.
    + auto.
  - pose proof (proj1 (message_condition o d) C) as A.
    simpl. split; [reflexivity|]. split; [|split; [|split]].
    + split; [intros _; exact A|]. intros _ E.
      apply (f_equal (@length Effect)) in E. rewrite length_app in E. simpl in E. lia.
    + intros _ _. repeat split.
      * apply lookup_insert_eq.
      * rewrite writes_app. simpl. reflexivity.
    + intros N. contradiction.
    + intros N. destruct A as [A _]. contradiction.
Qed.

Lemma restoreFromStorage_eq (w : World) :
  restoreFromStorage w =
  (Normal tt,
   match localStorage w !! AUTH_STORAGE_KEY with
   | None => w
   | Some stored =>
       if String.eqb stored "" then w
       else match JSON_parse stored with
            | Normal parsed => if has_email parsed then with_user parsed w else w
            | Threw e => warned "Failed to parse stored auth" e w
            end
   end).
Proof.
  run_M. destruct (localStorage w !! AUTH_STORAGE_KEY) as [stored|]; simpl; [|reflexivity].
  destruct (String.eqb stored ""); simpl; [reflexivity|].
  destruct (JSON_parse stored) as [parsed | e]; [|reflexivity].
  destruct (has_email parsed); reflexivity.
Qed.

Lemma storageHandler_eq (k v : option string) (w : World) :
  storageHandler k v w =
  (Normal tt,
   match k, v with
   | Some k', Some raw =>
       if String.eqb k' AUTH_STORAGE_KEY && negb (String.eqb raw "") then
         match JSON_parse raw with
         | Normal parsed => if has_email parsed then with_user parsed w else w
         | Threw e => warned "Failed to parse auth payload from storage" e w
         end
       else w
   | _, _ => w
   end).
Proof.
  unfold storageHandler.
  destruct k as [k'|]; [|rewrite bool_decide_eq_false_2 by discriminate; reflexivity].
  destruct (String.eqb_spec k' AUTH_STORAGE_KEY) as [-> | N].
  - rewrite bool_decide_eq_true_2 by reflexivity.
    destruct v as [raw|]; simpl; [|reflexivity].
    destruct (String.eqb raw ""); simpl; [reflexivity|].
    run_M. destruct (JSON_parse raw) as [parsed | e]; [|reflexivity].
    destruct (has_email parsed); reflexivity.
  - rewrite bool_decide_eq_false_2 by congruence.
    simpl. destruct v; reflexivity.
Qed.

Lemma handleGoogleConnect_user (b : bool) (w : World) :
  (handleGoogleConnect b w).1 = Normal tt /\
  user (home (handleGoogleConnect b w).2) = user (home w).
Proof. destruct b; run_M; auto. Qed.

Lemma has_email_identified (parsed : option AuthPayload) :
  has_email parsed = true <-> identified parsed.
Proof. apply has_email_true. Qed.

(** Every identity operation ends normally, and leaves the identity
    alone or replaces it by a payload with a non-empty email. *)
Lemma auth_handler_user (ev : AuthEvent) (w : World) :
  (auth_handler ev w).1 = Normal tt /\
  (user (home (auth_handler ev w).2) = user (home w) \/
   identified (user (home (auth_handler ev w).2))).
Proof.
  destruct ev as [ | o d | k v | b]; simpl.
  - rewrite restoreFromStorage_eq. simpl. split; [reflexivity|].
    destruct (localStorage w !! AUTH_STORAGE_KEY) as [stored|]; [|auto].
    destruct (String.eqb stored ""); [auto|].
    destruct (JSON_parse stored) as [parsed | e]; [|auto].
    destruct (has_email parsed) eqn:E; [|auto].
    right. apply has_email_identified. exact E.
  - rewrite messageHandler_eq.
    destruct (negb (String.eqb o apiOrigin) || negb (has_email d)) eqn:C; simpl; [auto|].
    split; [reflexivity|]. right. apply message_condition in C. apply C.
  - rewrite storageHandler_eq. simpl. split; [reflexivity|].
    destruct k as [k'|]; [|auto]. destruct v as [raw|]; [|auto].
    destruct (String.eqb k' AUTH_STORAGE_KEY && negb (String.eqb raw "")); [|auto].
    destruct (JSON_parse raw) as [parsed | e]; [|auto].
    destruct (has_email parsed) eqn:E; [|auto].
    right. apply has_email_identified. exact E.
  - destruct (handleGoogleConnect_user b w) as [H1 H2]. auto.
Qed.

Lemma auth_run_identified (evs : list AuthEvent) (w : World) :
  identified (user (home w)) -> identified (user (home (auth_run evs w))).
Proof.
  revert w. induction evs as [|ev evs IH]; intros w Hw; simpl; [exact Hw|].
  apply IH. destruct (auth_handler_user ev w) as [_ [E | H]]; [|exact H].
  rewrite E. exact Hw.
Qed.

(** C9, as the code has it. Every identity operation (restore, message,
    storage change, connect) ends normally and either leaves the
    identity as it is or replaces it by a payload with a non-empty
    email; so an identity, once there, is there after any sequence of
    them. Persisted or cross-tab text that does not parse is logged with
    [console.warn] and otherwise ignored. Text that parses to a value
    without a non-empty email is ignored as well, and nothing is logged
    for it. *)
Theorem identity_never_destroyed (ev : AuthEvent) (evs : list AuthEvent) (w : World) :
  ((auth_handler ev w).1 = Normal tt /\
   (user (home (auth_handler ev w).2) = user (home w) \/
    identified (user (home (auth_handler ev w).2)))) /\
  (identified (user (home w)) -> identified (user (home (auth_run evs w)))) /\
  (forall raw e, raw <> "" -> JSON_parse raw = Threw e ->
     (localStorage w !! AUTH_STORAGE_KEY = Some raw ->
        restoreFromStorage w = (Normal tt, warned "Failed to parse stored auth" e w)) /\
     storageHandler (Some AUTH_STORAGE_KEY) (Some raw) w =
       (Normal tt, warned "Failed to parse auth payload from storage" e w) /\
     forall msg, user (home (warned msg e w)) = user (home w)) /\
  (forall raw parsed, JSON_parse raw = Normal parsed -> ~ identified parsed ->
     (localStorage w !! AUTH_STORAGE_KEY = Some raw ->
        restoreFromStorage w = (Normal tt, w)) /\
     storageHandler (Some AUTH_STORAGE_KEY) (Some raw) w = (Normal tt, w)).
Proof.
  split; [apply auth_handler_user|]. split; [apply auth_run_identified|]. split.
  - intros raw e Hraw Hp. apply String.eqb_neq in Hraw. repeat split.
    + intros Hs. rewrite restoreFromStorage_eq, Hs, Hraw, Hp. reflexivity.
    + rewrite storageHandler_eq, String.eqb_refl, Hraw, Hp. reflexivity.
  - intros raw parsed Hp Hn.
    assert (E : has_email parsed = false).
    { destruct (has_email parsed) eqn:E; [|reflexivity].
      apply has_email_identified in E. contradiction. }
    split.
    + intros Hs. rewrite restoreFromStorage_eq, Hs, Hp, E.
      destruct (String.eqb raw ""); reflexivity.
    + rewrite storageHandler_eq, String.eqb_refl, Hp, E.
      destruct (String.eqb raw ""); reflexivity.
Qed.

(** ** The callback page *)

Lemma AuthCallbackPage_effect_eq (payload : option string) (w : World) :
  AuthCallbackPage_effect payload w =
  (Normal tt,
   let done_ (effects : list Effect) (store : gmap string string) :=
     mkWorld (home w) store (journal w ++ effects ++ [RouterReplace "/"]) in
   match payload with
   | None => done_ [] (localStorage w)
   | Some raw =>
       if String.eqb raw "" then done_ [] (localStorage w)
       else match JSON_parse raw with
            | Normal parsed =>
                if has_email parsed then
                  done_ [StorageSet AUTH_STORAGE_KEY (JSON_stringify parsed)]
                        (<[AUTH_STORAGE_KEY := JSON_stringify parsed]> (localStorage w))
                else done_ [] (localStorage w)
            | Threw e =>
                done_ [ConsoleWarn "Unable to restore authentication payload" e]
                      (localStorage w)
            end
   end).
Proof.
  destruct payload as [raw|]; [|reflexivity].
  run_M. destruct (String.eqb raw ""); simpl; [reflexivity|].
  destruct (JSON_parse raw) as [parsed | e]; simpl.
  - destruct (has_email parsed); simpl; rewrite <- ?app_assoc; reflexivity.
  - rewrite <- app_assoc. reflexivity.
Qed.

(** C10. The effect of the callback page, for every value of the
    [payload] parameter: it ends normally, touches no state cell, and
    its last effect is [router.replace("/")]. Before that it writes to
    the store exactly when the parameter is a non-empty text that parses
    to a payload with a non-empty email, and then it writes the
    serialisation of the parsed payload under the session key; with the
    parameter missing or empty, a parse failure, or no email, it writes
    nothing and the store is as before. *)
Theorem callback_stores_valid_payload_then_navigates
    (payload : option string) (w : World) :
  let r := AuthCallbackPage_effect payload w in
  r.1 = Normal tt /\
  home r.2 = home w /\
  exists effects,
    journal r.2 = journal w ++ effects ++ [RouterReplace "/"] /\
    (forall raw parsed,
       payload = Some raw -> raw <> "" -> JSON_parse raw = Normal parsed ->
       identified parsed ->
       writes effects = [(AUTH_STORAGE_KEY, JSON_stringify parsed)] /\
       localStorage r.2 = <[AUTH_STORAGE_KEY := JSON_stringify parsed]> (localStorage w)) /\
    (payload = None \/ payload = Some "" \/
     (exists raw e, payload = Some raw /\ JSON_parse raw = Threw e) \/
     (exists raw parsed, payload = Some raw /\ JSON_parse raw = Normal parsed /\
                         ~ identified parsed) ->
       writes effects = [] /\ localStorage r.2 = localStorage w) /\
    (writes effects <> [] ->
       exists raw parsed,
         payload = Some raw /\ raw <> "" /\ JSON_parse raw = Normal parsed /\
         identified parsed).
Proof.
  cbv zeta. rewrite AuthCallbackPage_effect_eq. simpl.
  split; [reflexivity|].
  destruct payload as [raw|].
  2:{ split; [reflexivity|]. exists []. split; [reflexivity|]. split; [|split].
      - intros ? ? [=].
      - auto.
      - simpl. congruence. }
  destruct (String.eqb_spec raw "") as [-> | Hraw].
  { split; [reflexivity|]. exists []. split; [reflexivity|]. split; [|split].
    - intros ? ? [= <-] N. congruence.
    - auto.
    - simpl. congruence. }
  destruct (JSON_parse raw) as [parsed | e] eqn:P.
  - destruct (has_email parsed) eqn:E.
    + split; [reflexivity|].
      exists [StorageSet AUTH_STORAGE_KEY (JSON_stringify parsed)].
      split; [reflexivity|]. split; [|split].
      * intros raw' parsed' [= <-] _ P' _. rewrite P in P'. injection P' as <-. auto.
      * intros [H | [H | [(raw' & e & [= <-] & P') | (raw' & parsed' & [= <-] & P' & N)]]];
          try congruence.
        rewrite P in P'. injection P' as <-.
        apply has_email_identified in E. contradiction.
      * intros _. exists raw, parsed. repeat split; try assumption.
        apply has_email_identified. exact E.
    + split; [reflexivity|]. exists []. split; [reflexivity|]. split; [|split].
      * intros raw' parsed' [= <-] _ P' I. rewrite P in P'. injection P' as <-.
        apply has_email_identified in I. congruence.
      * auto.
      * simpl. congruence.
  - split; [reflexivity|].
    exists [ConsoleWarn "Unable to restore authentication payload" e].
    split; [reflexivity|]. split; [|split].
    + intros raw' parsed' [= <-] _ P' _. congruence.
    + auto.
    + simpl. congruence.
Qed.

(** ** Further properties of the reconciliation *)

Lemma workflowSteps_ext (S S' : list WorkflowStep) :
  (forall t, In t WORKFLOW_TEMPLATE -> find_step S t = find_step S' t) ->
  workflowSteps S = workflowSteps S'.
Proof.
  intros H. unfold workflowSteps. apply map_ext_in.
  intros t Ht. unfold merge_step. rewrite (H t Ht). reflexivity.
Qed.

Lemma find_step_app (S1 S2 : list WorkflowStep) (t : TemplateEntry) :
  find_step (S1 ++ S2) t =
  match find_step S1 t with
  | Some m => Some m
  | None => find_step S2 t
  end.
Proof.
  unfold find_step. induction S1 as [|s S1 IH]; simpl; [reflexivity|].
  destruct (String.eqb (step_name s) (key t)); [reflexivity | exact IH].
Qed.

Lemma find_step_is_Some (S : list WorkflowStep) (t : TemplateEntry) (y : WorkflowStep) :
  In y S -> step_name y = key t -> exists m, find_step S t = Some m.
Proof.
  intros Hin Hy. destruct (find_step S t) as [m|] eqn:E; [eauto|].
  apply find_step_None in E. rewrite Forall_forall in E.
  apply list_elem_of_In in Hin. specialize (E y Hin). contradiction.
Qed.

(** X1. A server step does not count when its name is none of the four
    template keys, or when a step of the same name stands before it in
    the list: the timeline is the same with and without it. *)
Theorem workflowSteps_irrelevant_step (S1 S2 : list WorkflowStep) (x : WorkflowStep) :
  (forall t, In t WORKFLOW_TEMPLATE -> step_name x <> key t) \/
  (exists y, In y S1 /\ step_name y = step_name x) ->
  workflowSteps (S1 ++ x :: S2) = workflowSteps (S1 ++ S2).
Proof.
  intros H. apply workflowSteps_ext. intros t Ht.
  rewrite !find_step_app.
  destruct (find_step S1 t) as [m|] eqn:E; [reflexivity|].
  unfold find_step at 1. simpl. fold (find_step S2 t).
  destruct (String.eqb_spec (step_name x) (key t)) as [Hx | Hx]; [|reflexivity].
  exfalso. destruct H as [H | (y & Hy & Hn)].
  - exact (H t Ht Hx).
  - destruct (find_step_is_Some S1 t y Hy) as [m Hm]; congruence.
Qed.

Lemma find_step_Permutation (S S' : list WorkflowStep) (t : TemplateEntry) :
  NoDup (map step_name S) -> Permutation S S' -> find_step S t = find_step S' t.
Proof.
  intros Hnd Hp. induction Hp as [| x l l' Hp IH | x y l | l l' l'' H1 IH1 H2 IH2].
  - reflexivity.
  - unfold find_step. simpl. fold (find_step l t) (find_step l' t).
    simpl in Hnd. apply NoDup_cons in Hnd as [_ Hnd].
    rewrite (IH Hnd). reflexivity.
  - unfold find_step. simpl.
    destruct (String.eqb_spec (step_name y) (key t)) as [Hy | Hy];
      destruct (String.eqb_spec (step_name x) (key t)) as [Hx | Hx]; try reflexivity.
    exfalso. simpl in Hnd. apply NoDup_cons in Hnd as [Hnd _].
    apply Hnd. rewrite Hy, <- Hx. left.
  - rewrite (IH1 Hnd). apply IH2.
    pose proof (Permutation_map step_name H1) as Hm.
    rewrite <- Hm. exact Hnd.
Qed.

(** X2. The order of the server steps does not matter as long as no name
    occurs twice: a permutation of such a list gives the same timeline. *)
Theorem workflowSteps_order_irrelevant (S S' : list WorkflowStep) :
  NoDup (map step_name S) -> Permutation S S' ->
  workflowSteps S = workflowSteps S'.
Proof.
  intros Hnd Hp. apply workflowSteps_ext. intros t _.
  apply find_step_Permutation; assumption.
Qed.

(** ** Strings: blank instructions, the base URL, the lines of a draft *)

Lemma drop_spaces_step (l : list Ascii.ascii) :
  drop_spaces l = match space_token l with
                  | Some rest => drop_spaces rest
                  | None => l
                  end.
Proof.
  destruct l as [|c1 [|c2 [|c3 l3]]]; simpl; try reflexivity.
  - destruct (space1 c1); reflexivity.
  - destruct (space1 c1); [reflexivity|]. destruct (space2 c1 c2); reflexivity.
  - destruct (space1 c1); [reflexivity|]. destruct (space2 c1 c2); [reflexivity|].
    destruct (space3 c1 c2 c3); reflexivity.
Qed.

Lemma byte_of_code (c : Ascii.ascii) (k : N) :
  Ascii.N_of_ascii c = k -> c = Ascii.ascii_of_N k.
Proof. intros <-. symmetry. apply Ascii.ascii_N_embedding. Qed.

Lemma space_token_length (l rest : list Ascii.ascii) :
  space_token l = Some rest -> length rest < length l.
Proof.
  destruct l as [|c1 [|c2 [|c3 l3]]]; simpl; try discriminate.
  - destruct (space1 c1); [|discriminate]. intros [= <-]. simpl. lia.
  - destruct (space1 c1); [intros [= <-]; simpl; lia|].
    destruct (space2 c1 c2); [|discriminate]. intros [= <-]. simpl. lia.
  - destruct (space1 c1); [intros [= <-]; simpl; lia|].
    destruct (space2 c1 c2); [intros [= <-]; simpl; lia|].
    destruct (space3 c1 c2 c3); [|discriminate]. intros [= <-]. simpl. lia.
Qed.

Lemma space1_code (c1 : Ascii.ascii) :
  space1 c1 = true ->
  js_white_space (utf8_code_point [c1]) = true /\ utf8_encode (utf8_code_point [c1]) = [c1].
Proof.
  unfold space1. intros H.
  assert (K : In (Ascii.N_of_ascii c1) [9; 10; 11; 12; 13; 32]%N).
  { apply orb_true_iff in H as [H | H].
    - apply andb_true_iff in H as [H1 H2]. apply N.leb_le in H1, H2. simpl.
      destruct (Ascii.N_of_ascii c1) as [|p]; [lia|]. lia.
    - apply N.eqb_eq in H. simpl. lia. }
  simpl in K.
  destruct K as [K | [K | [K | [K | [K | [K | []]]]]]];
    symmetry in K; apply byte_of_code in K; subst; split; reflexivity.
Qed.

Lemma space2_code (c1 c2 : Ascii.ascii) :
  space2 c1 c2 = true ->
  js_white_space (utf8_code_point [c1; c2]) = true /\
  utf8_encode (utf8_code_point [c1; c2]) = [c1; c2].
Proof.
  unfold space2. intros H. apply andb_true_iff in H as [H1 H2].
  apply N.eqb_eq, byte_of_code in H1. apply N.eqb_eq, byte_of_code in H2.
  subst. split; reflexivity.
Qed.

Lemma space3_code (c1 c2 c3 : Ascii.ascii) :
  space3 c1 c2 c3 = true ->
  js_white_space (utf8_code_point [c1; c2; c3]) = true /\
  utf8_encode (utf8_code_point [c1; c2; c3]) = [c1; c2; c3].
Proof.
  unfold space3. cbv zeta. intros H. break_bool; try (split; reflexivity).
  assert (K : In (Ascii.N_of_ascii c3)
                 [128; 129; 130; 131; 132; 133; 134; 135; 136; 137; 138]%N)
    by (simpl; lia).
  simpl in K.
  repeat (destruct K as [K | K];
          [symmetry in K; apply byte_of_code in K; subst; split; reflexivity|]).
  destruct K.
Qed.

Lemma space_token_code (l rest : list Ascii.ascii) :
  space_token l = Some rest ->
  exists cp, js_white_space cp = true /\ l = utf8_encode cp ++ rest.
Proof.
  destruct l as [|c1 l1]; simpl; [discriminate|].
  destruct (space1 c1) eqn:E1.
  { intros [= <-]. destruct (space1_code c1 E1) as [W U].
    exists (utf8_code_point [c1]). rewrite U. auto. }
  destruct l1 as [|c2 l2]; [discriminate|].
  destruct (space2 c1 c2) eqn:E2.
  { intros [= <-]. destruct (space2_code c1 c2 E2) as [W U].
    exists (utf8_code_point [c1; c2]). rewrite U. auto. }
  destruct l2 as [|c3 l3]; [discriminate|].
  destruct (space3 c1 c2 c3) eqn:E3; [|discriminate].
  intros [= <-]. destruct (space3_code c1 c2 c3 E3) as [W U].
  exists (utf8_code_point [c1; c2; c3]). rewrite U. auto.
Qed.

Lemma js_white_space_table (cp : N) :
  js_white_space cp = true ->
  In cp [9; 10; 11; 12; 13; 32; 160; 5760; 8192; 8193; 8194; 8195; 8196; 8197; 8198;
         8199; 8200; 8201; 8202; 8232; 8233; 8239; 8287; 12288; 65279]%N.
Proof.
  unfold js_white_space. intros H.
  repeat (apply orb_true_iff in H as [H | H]);
    try (apply andb_true_iff in H as [H1 H2]; apply N.leb_le in H1, H2);
    try apply N.eqb_eq in H; simpl; lia.
Qed.

Lemma drop_spaces_token (cp : N) (l : list Ascii.ascii) :
  js_white_space cp = true -> drop_spaces (utf8_encode cp ++ l) = drop_spaces l.
Proof.
  intros H. apply js_white_space_table in H. simpl in H.
  repeat (destruct H as [H | H]; [subst cp; reflexivity|]).
  destruct H.
Qed.

Lemma drop_spaces_utf8 (cps : list N) (l : list Ascii.ascii) :
  forallb js_white_space cps = true ->
  drop_spaces (flat_map utf8_encode cps ++ l) = drop_spaces l.
Proof.
  induction cps as [|cp cps IH]; simpl; [reflexivity|].
  intros H. apply andb_true_iff in H as [H1 H2].
  rewrite <- app_assoc, drop_spaces_token by exact H1. apply IH, H2.
Qed.

(** What [drop_spaces] removes is a sequence of white-space
    characters. *)
Lemma drop_spaces_prefix (l : list Ascii.ascii) :
  exists cps, forallb js_white_space cps = true /\
              l = flat_map utf8_encode cps ++ drop_spaces l.
Proof.
  remember (length l) as n eqn:Hn. revert l Hn.
  induction n as [n IH] using lt_wf_ind. intros l ->.
  rewrite drop_spaces_step. destruct (space_token l) as [rest|] eqn:T.
  - destruct (space_token_code l rest T) as (cp & W & ->).
    destruct (IH (length rest) (space_token_length _ _ T) rest eq_refl) as (cps & Ws & E).
    exists (cp :: cps). simpl. rewrite W, Ws. split; [reflexivity|].
    rewrite <- app_assoc. f_equal. exact E.
  - exists []. split; reflexivity.
Qed.

Lemma drop_trailing_spaces_nil (l : list Ascii.ascii) :
  drop_trailing_spaces l = [] <-> drop_spaces l = [].
Proof.
  destruct l as [|c l']; [simpl; tauto|].
  change (drop_trailing_spaces (c :: l')) with
    (match drop_spaces (c :: l') with
     | [] => []
     | _ :: _ => c :: drop_trailing_spaces l'
     end).
  destruct (drop_spaces (c :: l')); split; intros H; (reflexivity || discriminate H).
Qed.

Lemma string_of_list_ascii_nil (l : list Ascii.ascii) :
  String.string_of_list_ascii l = "" <-> l = [].
Proof. destruct l; simpl; split; congruence. Qed.

(** [trim] gives the empty text exactly for the texts made of white
    space only. *)
Lemma trim_blank (s : string) :
  trim s = "" <->
  exists cps, forallb js_white_space cps = true /\ s = utf8_string cps.
Proof.
  unfold trim. rewrite string_of_list_ascii_nil, drop_trailing_spaces_nil.
  split.
  - intros H.
    destruct (drop_spaces_prefix (String.list_ascii_of_string s)) as (cps0 & W0 & E0).
    destruct (drop_spaces_prefix (drop_spaces (String.list_ascii_of_string s)))
      as (cps1 & W1 & E1).
    rewrite H, app_nil_r in E1. rewrite E1 in E0.
    exists (cps0 ++ cps1). split.
    + rewrite forallb_app, W0, W1. reflexivity.
    + unfold utf8_string. rewrite flat_map_app, <- E0.
      symmetry. apply String.string_of_list_ascii_of_string.
  - intros (cps & W & ->). unfold utf8_string.
    rewrite String.list_ascii_of_string_of_list_ascii.
    pose proof (drop_spaces_utf8 cps [] W) as D. rewrite app_nil_r in D.
    rewrite D. reflexivity.
Qed.

Lemma list_ascii_of_string_app (s1 s2 : string) :
  String.list_ascii_of_string (s1 +:+ s2) =
  String.list_ascii_of_string s1 ++ String.list_ascii_of_string s2.
Proof.
  induction s1 as [|c s1 IH]; simpl; [reflexivity|]. rewrite IH. reflexivity.
Qed.

Lemma strip_trailing_slash_app (s : string) : strip_trailing_slash (s +:+ "/") = s.
Proof.
  unfold strip_trailing_slash. rewrite list_ascii_of_string_app. simpl.
  rewrite rev_app_distr. simpl. rewrite rev_involutive.
  apply String.string_of_list_ascii_of_string.
Qed.

Lemma is_newline_eq (c : Ascii.ascii) :
  is_newline c = true -> c = Ascii.ascii_of_nat 10.
Proof.
  unfold is_newline. intros H. apply Nat.eqb_eq in H.
  rewrite <- H. symmetry. apply Ascii.ascii_nat_embedding.
Qed.

Lemma split_lines_cons (body : string) :
  exists line lines, split_lines body = line :: lines.
Proof.
  destruct body as [|c rest]; simpl; [eauto|].
  destruct (is_newline c); [eauto|].
  destruct (split_lines rest); eauto.
Qed.

Lemma join_lines_cons_char (c : Ascii.ascii) (line : string) (lines : list string) :
  join_lines (String c line :: lines) = String c (join_lines (line :: lines)).
Proof. destruct lines; reflexivity. Qed.

Lemma join_lines_cons2 (x y : string) (l : list string) :
  join_lines (x :: y :: l) = x +:+ String (Ascii.ascii_of_nat 10) (join_lines (y :: l)).
Proof. reflexivity. Qed.

(** The newline count of a text. *)
Lemma split_lines_length (body : string) :
  length (split_lines body) =
  S (length (filter (fun c => is_newline c = true) (String.list_ascii_of_string body))).
Proof.
  induction body as [|c rest IH]; simpl; [reflexivity|].
  rewrite filter_cons. destruct (is_newline c) eqn:E.
  - rewrite decide_True by reflexivity. simpl. rewrite IH. reflexivity.
  - rewrite decide_False by discriminate.
    destruct (split_lines_cons rest) as (line & lines & Hs).
    rewrite Hs in *. simpl in *. exact IH.
Qed.

(** X18. The draft body is shown whole: [body.split("\n")] gives one
    paragraph more than the body has line feeds, so at least one even
    for an empty body; no paragraph contains a line feed; and the
    paragraphs, joined by line feeds again, are the body. *)
Theorem split_lines_shows_whole_body (body : string) :
  join_lines (split_lines body) = body /\
  length (split_lines body) =
    S (length (filter (fun c => is_newline c = true)
                      (String.list_ascii_of_string body))) /\
  Forall (fun line =>
            forallb (fun c => negb (is_newline c)) (String.list_ascii_of_string line) = true)
         (split_lines body).
Proof.
  split; [|split; [apply split_lines_length|]].
  - induction body as [|c rest IH]; simpl; [reflexivity|].
    destruct (is_newline c) eqn:E.
    + destruct (split_lines_cons rest) as (line & lines & Hs).
      rewrite Hs in *. rewrite join_lines_cons2, IH. simpl.
      rewrite (is_newline_eq c E). reflexivity.
    + destruct (split_lines_cons rest) as (line & lines & Hs).
      rewrite Hs in *. rewrite join_lines_cons_char, IH. reflexivity.
  - induction body as [|c rest IH]; simpl; [repeat constructor|].
    destruct (is_newline c) eqn:E.
    + constructor; [reflexivity | exact IH].
    + destruct (split_lines_cons rest) as (line & lines & Hs).
      rewrite Hs in *. apply Forall_cons in IH as [H1 H2].
      constructor; [|exact H2]. simpl. rewrite E. simpl. exact H1.
Qed.

(** ** Further properties of the submission *)

Lemma begin_noop_iff (w : World) :
  handleSubmit_begin w = (Normal None, w) <->
  negb (truthy (Some (trim (instruction (home w))))) || isSubmitting (home w) = true.
Proof.
  rewrite handleSubmit_begin_eq.
  destruct (negb (truthy (Some (trim (instruction (home w))))) || isSubmitting (home w)).
  - tauto.
  - split; discriminate.
Qed.

(** X3. The submit button is disabled in exactly the states in which
    [handleSubmit] returns at its guard without any effect: the button
    and the handler (also reached by the Enter key) agree. *)
Theorem submit_button_agrees_with_guard (w : World) :
  submit_disabled (home w) = true <-> handleSubmit_begin w = (Normal None, w).
Proof.
  rewrite begin_noop_iff. unfold submit_disabled. rewrite orb_comm. reflexivity.
Qed.

(** X4. [handleSubmit] returns at its guard exactly when a submission is in
    flight or the instruction is made of white space only, that is, it
    is the UTF-8 text of a sequence of white-space and line-terminator
    characters of ECMAScript (the empty instruction included); an
    instruction with anything else in it is accepted, whatever white
    space surrounds it. *)
Theorem handleSubmit_rejects_blank_or_in_flight (w : World) :
  handleSubmit_begin w = (Normal None, w) <->
  isSubmitting (home w) = true \/
  exists cps : list N,
    forallb js_white_space cps = true /\ instruction (home w) = utf8_string cps.
Proof.
  rewrite begin_noop_iff, guard_rejects, trim_blank. tauto.
Qed.

Lemma settle_keeps (result : FetchResult) (w : World) :
  let w' := (handleSubmit_settle result w).2 in
  user (home w') = user (home w) /\
  authError (home w') = authError (home w) /\
  localStorage w' = localStorage w /\
  writes (journal w') = writes (journal w) /\
  fetches (journal w') = fetches (journal w).
Proof.
  cbv zeta. rewrite handleSubmit_settle_eq.
  destruct result as [e | [[] [[d|] | e]]]; simpl;
    rewrite writes_app, fetches_app; simpl; rewrite !app_nil_r; auto.
Qed.

Lemma handleSubmit_eq (service : Request -> FetchResult) (w : World) :
  handleSubmit service w =
  if negb (truthy (Some (trim (instruction (home w))))) || isSubmitting (home w)
  then (Normal tt, w)
  else handleSubmit_settle (service (request_of (home w))) (begun w).
Proof.
  unfold handleSubmit, mbind, M_bind. rewrite handleSubmit_begin_eq.
  destruct (negb (truthy (Some (trim (instruction (home w))))) || isSubmitting (home w));
    reflexivity.
Qed.

(** X5. A call of [handleSubmit], accepted or not and whatever the remote
    service answers, leaves the identity, the authentication error and
    the persisted store as they were, and writes nothing to the store. *)
Theorem handleSubmit_leaves_identity_and_store
    (service : Request -> FetchResult) (w : World) :
  let w' := (handleSubmit service w).2 in
  user (home w') = user (home w) /\
  authError (home w') = authError (home w) /\
  localStorage w' = localStorage w /\
  writes (journal w') = writes (journal w).
Proof.
  cbv zeta. rewrite handleSubmit_eq.
  destruct (negb (truthy (Some (trim (instruction (home w))))) || isSubmitting (home w)).
  - auto.
  - destruct (settle_keeps (service (request_of (home w))) (begun w))
      as (H1 & H2 & H3 & H4 & _).
    rewrite H1, H2, H3, H4. unfold begun. simpl.
    rewrite writes_app. simpl. rewrite app_nil_r. auto.
Qed.

(** X6. One call of [handleSubmit] sends one request when it is accepted and
    none when it is not, whatever the remote service answers: a failure
    is never retried by the call itself. The request carries the
    instruction exactly as typed (not trimmed) and the email and name of
    the identity, which are left out when nobody is connected. *)
Theorem handleSubmit_sends_one_request (service : Request -> FetchResult) (w : World) :
  fetches (journal (handleSubmit service w).2) =
  fetches (journal w) ++
  (if submit_disabled (home w) then []
   else [mkRequest (strip_trailing_slash API_BASE_URL +:+ "/agent/run")
                   (instruction (home w))
                   (user (home w) ≫= email) (user (home w) ≫= name)]).
Proof.
  rewrite handleSubmit_eq. unfold submit_disabled.
  rewrite (orb_comm (isSubmitting (home w))).
  destruct (negb (truthy (Some (trim (instruction (home w))))) || isSubmitting (home w)).
  - rewrite app_nil_r. reflexivity.
  - destruct (settle_keeps (service (request_of (home w))) (begun w))
      as (_ & _ & _ & _ & H).
    rewrite H. unfold begun. simpl. rewrite fetches_app. reflexivity.
Qed.

(** X7. After an accepted call of [handleSubmit] that did not succeed
    (rejection, body that does not parse, non-2xx, null body) the
    instruction is still in the input, no draft is shown, and a second
    call sends the same request again. After one that succeeded the
    input is empty, no error is shown, and a second call is a no-op. *)
Theorem handleSubmit_retry_after_failure
    (service1 service2 : Request -> FetchResult) (w : World) :
  trim (instruction (home w)) <> "" -> isSubmitting (home w) = false ->
  let w1 := (handleSubmit service1 w).2 in
  ((forall d, service1 (request_of (home w)) <> Resolved (mkHttp true (Normal (Some d)))) ->
     instruction (home w1) = instruction (home w) /\
     generatedEmail (home w1) = None /\
     (exists m, submitError (home w1) = Some m) /\
     fetches (journal (handleSubmit service2 w1).2) =
       fetches (journal w) ++ [request_of (home w); request_of (home w)]) /\
  (forall d, service1 (request_of (home w)) = Resolved (mkHttp true (Normal (Some d))) ->
     instruction (home w1) = "" /\
     submitError (home w1) = None /\
     handleSubmit service2 w1 = (Normal tt, w1)).
Proof.
  intros G1 G2. cbv zeta.
  rewrite (handleSubmit_accepted service1 w G1 G2), handleSubmit_settle_eq.
  unfold snd.
  assert (F : forall m,
    instruction (home (failed m (begun w))) = instruction (home w) /\
    generatedEmail (home (failed m (begun w))) = None /\
    (exists m', submitError (home (failed m (begun w))) = Some m') /\
    fetches (journal (handleSubmit service2 (failed m (begun w))).2) =
      fetches (journal w) ++ [request_of (home w); request_of (home w)]).
  { intros m. repeat split; [eexists; reflexivity|].
    rewrite handleSubmit_accepted by (simpl; first [assumption | reflexivity]).
    destruct (settle_keeps (service2 (request_of (home (failed m (begun w)))))
                (begun (failed m (begun w)))) as (_ & _ & _ & _ & H).
    rewrite H. unfold begun, failed, request_of. simpl.
    rewrite !fetches_app. simpl. rewrite !app_nil_r, <- app_assoc. reflexivity. }
  split.
  - intros N.
    destruct (service1 (request_of (home w))) as [e | [[] [[d|] | e]]]; try apply F.
    exfalso. exact (N d eq_refl).
  - intros d ->. repeat split.
Qed.

(** ** Further properties of the identity synchronisation *)

Lemma with_user_keeps (parsed : option AuthPayload) (w : World) :
  localStorage (with_user parsed w) = localStorage w /\
  authError (home (with_user parsed w)) = authError (home w) /\
  writes (journal (with_user parsed w)) = writes (journal w) /\
  user (home (with_user parsed w)) = parsed.
Proof.
  unfold with_user. simpl. rewrite writes_app. simpl. rewrite app_nil_r. auto.
Qed.

Lemma warned_keeps (msg : string) (e : Thrown) (w : World) :
  localStorage (warned msg e w) = localStorage w /\
  home (warned msg e w) = home w /\
  writes (journal (warned msg e w)) = writes (journal w).
Proof.
  unfold warned. simpl. rewrite writes_app. simpl. rewrite app_nil_r. auto.
Qed.

Lemma storageHandler_cases (k v : option string) (w : World) :
  storageHandler k v w = (Normal tt, w) \/
  (exists raw e,
     k = Some AUTH_STORAGE_KEY /\ v = Some raw /\ raw <> "" /\
     JSON_parse raw = Threw e /\
     storageHandler k v w =
       (Normal tt, warned "Failed to parse auth payload from storage" e w)) \/
  (exists raw parsed,
     k = Some AUTH_STORAGE_KEY /\ v = Some raw /\ raw <> "" /\
     JSON_parse raw = Normal parsed /\ identified parsed /\
     storageHandler k v w = (Normal tt, with_user parsed w)).
Proof.
  rewrite storageHandler_eq.
  destruct k as [k'|]; [|left; reflexivity].
  destruct v as [raw|]; [|left; reflexivity].
  destruct (String.eqb_spec k' AUTH_STORAGE_KEY) as [-> | Nk]; simpl; [|left; reflexivity].
  destruct (String.eqb_spec raw "") as [-> | Nr]; simpl; [left; reflexivity|].
  destruct (JSON_parse raw) as [parsed | e] eqn:P.
  - destruct (has_email parsed) eqn:E; [|left; reflexivity].
    right. right. exists raw, parsed. rewrite P.
    apply has_email_identified in E. auto 10.
  - right. left. exists raw, e. rewrite P. auto 10.
Qed.

Lemma restoreFromStorage_cases (w : World) :
  restoreFromStorage w = (Normal tt, w) \/
  (exists raw e,
     localStorage w !! AUTH_STORAGE_KEY = Some raw /\ raw <> "" /\
     JSON_parse raw = Threw e /\
     restoreFromStorage w = (Normal tt, warned "Failed to parse stored auth" e w)) \/
  (exists raw parsed,
     localStorage w !! AUTH_STORAGE_KEY = Some raw /\ raw <> "" /\
     JSON_parse raw = Normal parsed /\ identified parsed /\
     restoreFromStorage w = (Normal tt, with_user parsed w)).
Proof.
  rewrite restoreFromStorage_eq.
  destruct (localStorage w !! AUTH_STORAGE_KEY) as [raw|]; [|left; reflexivity].
  destruct (String.eqb_spec raw "") as [-> | Nr]; [left; reflexivity|].
  destruct (JSON_parse raw) as [parsed | e] eqn:P.
  - destruct (has_email parsed) eqn:E; [|left; reflexivity].
    right. right. exists raw, parsed.
    apply has_email_identified in E. auto 10.
  - right. left. exists raw, e. auto 10.
Qed.

Lemma storageHandler_valid (raw : string) (parsed : option AuthPayload) (w : World) :
  raw <> "" -> JSON_parse raw = Normal parsed -> identified parsed ->
  storageHandler (Some AUTH_STORAGE_KEY) (Some raw) w = (Normal tt, with_user parsed w).
Proof.
  intros Nr P I. apply String.eqb_neq in Nr. apply has_email_identified in I.
  rewrite storageHandler_eq, String.eqb_refl, Nr, P, I. reflexivity.
Qed.

Lemma restoreFromStorage_valid (raw : string) (parsed : option AuthPayload) (w : World) :
  localStorage w !! AUTH_STORAGE_KEY = Some raw ->
  raw <> "" -> JSON_parse raw = Normal parsed -> identified parsed ->
  restoreFromStorage w = (Normal tt, with_user parsed w).
Proof.
  intros L Nr P I. apply String.eqb_neq in Nr. apply has_email_identified in I.
  rewrite restoreFromStorage_eq, L, Nr, P, I. reflexivity.
Qed.

Lemma storageHandler_keeps (k v : option string) (w : World) :
  (storageHandler k v w).1 = Normal tt /\
  localStorage (storageHandler k v w).2 = localStorage w /\
  writes (journal (storageHandler k v w).2) = writes (journal w) /\
  authError (home (storageHandler k v w).2) = authError (home w).
Proof.
  destruct (storageHandler_cases k v w)
    as [-> | [(raw & e & _ & _ & _ & _ & ->) | (raw & parsed & _ & _ & _ & _ & _ & ->)]];
    unfold fst, snd.
  - auto.
  - destruct (warned_keeps "Failed to parse auth payload from storage" e w)
      as (H1 & H2 & H3). rewrite H1, H2, H3. auto.
  - destruct (with_user_keeps parsed w) as (H1 & H2 & H3 & _). auto.
Qed.

Lemma restoreFromStorage_keeps (w : World) :
  (restoreFromStorage w).1 = Normal tt /\
  localStorage (restoreFromStorage w).2 = localStorage w /\
  writes (journal (restoreFromStorage w).2) = writes (journal w) /\
  authError (home (restoreFromStorage w).2) = authError (home w).
Proof.
  destruct (restoreFromStorage_cases w)
    as [-> | [(raw & e & _ & _ & _ & ->) | (raw & parsed & _ & _ & _ & _ & ->)]];
    unfold fst, snd.
  - auto.
  - destruct (warned_keeps "Failed to parse stored auth" e w)
      as (H1 & H2 & H3). rewrite H1, H2, H3. auto.
  - destruct (with_user_keeps parsed w) as (H1 & H2 & H3 & _). auto.
Qed.

(** X8. A cross-tab storage event only ever reads: it never throws, writes
    nothing to the store and leaves the authentication error alone. It
    changes the identity only when the key is the session key and the
    new value is a non-empty text that parses to a payload with a
    non-empty email, which then becomes the identity. An event for
    another key, or with no new value (the entry was removed in the
    other tab), leaves the world as it is: a removal does not sign the
    page out. *)
Theorem storageHandler_reads_only (k v : option string) (w : World) :
  let r := storageHandler k v w in
  (r.1 = Normal tt /\
   localStorage r.2 = localStorage w /\
   writes (journal r.2) = writes (journal w) /\
   authError (home r.2) = authError (home w)) /\
  (user (home r.2) <> user (home w) ->
     k = Some AUTH_STORAGE_KEY /\
     exists raw, v = Some raw /\ raw <> "" /\
                 JSON_parse raw = Normal (user (home r.2)) /\
                 identified (user (home r.2))) /\
  (forall raw parsed,
     k = Some AUTH_STORAGE_KEY -> v = Some raw -> raw <> "" ->
     JSON_parse raw = Normal parsed -> identified parsed ->
     user (home r.2) = parsed) /\
  (k <> Some AUTH_STORAGE_KEY \/ v = None \/ v = Some "" -> r.2 = w).
Proof.
  cbv zeta. split; [apply storageHandler_keeps|]. split; [|split].
  - destruct (storageHandler_cases k v w)
      as [-> | [(raw & e & _ & _ & _ & _ & ->) |
                (raw & parsed & Hk & Hv & Nr & P & I & ->)]]; unfold snd.
    + intros N. contradiction.
    + intros N. exfalso. apply N. reflexivity.
    + intros _. split; [exact Hk|]. exists raw.
      destruct (with_user_keeps parsed w) as (_ & _ & _ & ->). auto.
  - intros raw parsed -> -> Nr P I. rewrite (storageHandler_valid raw parsed w Nr P I).
    apply with_user_keeps.
  - destruct (storageHandler_cases k v w)
      as [-> | [(raw & e & Hk & Hv & Nr & _) | (raw & parsed & Hk & Hv & Nr & _)]];
      [reflexivity | |]; intros [H | [H | H]]; congruence.
Qed.

(** X9. Restoring on load only ever reads: it never throws, writes nothing
    to the store and leaves the authentication error alone. With no
    entry under the session key, or an empty one, the world is left as
    it is; the identity changes only when the entry is a non-empty text
    that parses to a payload with a non-empty email, which then becomes
    the identity. *)
Theorem restoreFromStorage_reads_only (w : World) :
  let r := restoreFromStorage w in
  (r.1 = Normal tt /\
   localStorage r.2 = localStorage w /\
   writes (journal r.2) = writes (journal w) /\
   authError (home r.2) = authError (home w)) /\
  (localStorage w !! AUTH_STORAGE_KEY = None \/
   localStorage w !! AUTH_STORAGE_KEY = Some "" -> r.2 = w) /\
  (user (home r.2) <> user (home w) ->
     exists raw, localStorage w !! AUTH_STORAGE_KEY = Some raw /\ raw <> "" /\
                 JSON_parse raw = Normal (user (home r.2)) /\
                 identified (user (home r.2))) /\
  (forall raw parsed,
     localStorage w !! AUTH_STORAGE_KEY = Some raw -> raw <> "" ->
     JSON_parse raw = Normal parsed -> identified parsed ->
     user (home r.2) = parsed).
Proof.
  cbv zeta. split; [apply restoreFromStorage_keeps|]. split; [|split].
  - destruct (restoreFromStorage_cases w)
      as [-> | [(raw & e & L & Nr & _) | (raw & parsed & L & Nr & _)]];
      [reflexivity | |]; intros [H | H]; congruence.
  - destruct (restoreFromStorage_cases w)
      as [-> | [(raw & e & _ & _ & _ & ->) | (raw & parsed & L & Nr & P & I & ->)]];
      unfold snd.
    + intros N. contradiction.
    + intros N. exfalso. apply N. reflexivity.
    + intros _. exists raw.
      destruct (with_user_keeps parsed w) as (_ & _ & _ & ->). auto.
  - intros raw parsed L Nr P I. rewrite (restoreFromStorage_valid raw parsed w L Nr P I).
    apply with_user_keeps.
Qed.

Lemma handleGoogleConnect_opens (popup_opened : bool) (w : World) :
  In (WindowOpen (strip_trailing_slash API_BASE_URL +:+ "/auth/google/login"))
     (journal (handleGoogleConnect popup_opened w).2).
Proof.
  destruct popup_opened; run_M; rewrite <- app_assoc; apply in_or_app; right; left;
    reflexivity.
Qed.

(** X10. Connecting opens the login page of the remote service, at the base
    URL without its final slash, and never throws. When the popup is
    blocked the authentication error becomes the pop-up message; when
    it opens, the popup is focused and no state cell changes, so an
    earlier authentication error stays on the page. In both cases the
    identity and the store are untouched. *)
Theorem handleGoogleConnect_popup (popup_opened : bool) (w : World) :
  let r := handleGoogleConnect popup_opened w in
  let url := strip_trailing_slash API_BASE_URL +:+ "/auth/google/login" in
  r.1 = Normal tt /\
  user (home r.2) = user (home w) /\
  localStorage r.2 = localStorage w /\
  (popup_opened = true ->
     home r.2 = home w /\ journal r.2 = journal w ++ [WindowOpen url; PopupFocus]) /\
  (popup_opened = false ->
     authError (home r.2) =
       Some "Please allow pop-ups to connect your Google account." /\
     exists s, journal r.2 = journal w ++ [WindowOpen url; SetState s]).
Proof.
  destruct popup_opened; run_M; rewrite <- app_assoc;
    (split; [reflexivity|]); (split; [reflexivity|]); (split; [reflexivity|]); split;
    intros H; try discriminate H.
  - split; reflexivity.
  - split; [reflexivity|]. eexists. reflexivity.
Qed.

(** X11. The pop-up error, once shown, is cleared by the next accepted
    message, and by nothing else of the identity component: a storage
    event, a restore and a popup that opens all leave it on the page. *)
Theorem popup_error_cleared_by_message_only
    (o : string) (d : option AuthPayload) (k v : option string) (w : World) :
  let blocked := (handleGoogleConnect false w).2 in
  authError (home blocked) =
    Some "Please allow pop-ups to connect your Google account." /\
  (o = apiOrigin -> identified d ->
     authError (home (messageHandler o d blocked).2) = None) /\
  authError (home (storageHandler k v blocked).2) = authError (home blocked) /\
  authError (home (restoreFromStorage blocked).2) = authError (home blocked) /\
  authError (home (handleGoogleConnect true blocked).2) = authError (home blocked).
Proof.
  cbv zeta. split; [reflexivity|]. split; [|split; [|split]].
  - intros Ho Hd. rewrite messageHandler_eq.
    pose proof (proj2 (message_condition o d) (conj Ho Hd)) as C. rewrite C. reflexivity.
  - apply (storageHandler_keeps k v (handleGoogleConnect false w).2).
  - apply (restoreFromStorage_keeps (handleGoogleConnect false w).2).
  - reflexivity.
Qed.

(** X12. What a user stored by an accepted message is what a reload of the
    page, or another tab told of the change, reads back: after the
    message the identity restored from the store, and the identity set
    by the storage event carrying the stored text, are the payload of
    the message. This needs the codec to take the payload to a
    non-empty text and back. *)
Theorem identity_survives_reload
    (o : string) (d : option AuthPayload) (w other : World)
    (h : HomeState) (j : list Effect) :
  o = apiOrigin -> identified d ->
  JSON_stringify d <> "" -> JSON_parse (JSON_stringify d) = Normal d ->
  let store := localStorage (messageHandler o d w).2 in
  user (home (restoreFromStorage (mkWorld h store j)).2) = d /\
  user (home (storageHandler (Some AUTH_STORAGE_KEY) (store !! AUTH_STORAGE_KEY) other).2)
    = d.
Proof.
  intros Ho Hd Hs Hp. cbv zeta. rewrite messageHandler_eq.
  rewrite (proj2 (message_condition o d) (conj Ho Hd)). simpl.
  rewrite lookup_insert_eq. split.
  - rewrite (restoreFromStorage_valid (JSON_stringify d) d); try assumption.
    + apply with_user_keeps.
    + simpl. apply lookup_insert_eq.
  - rewrite (storageHandler_valid (JSON_stringify d) d); try assumption.
    apply with_user_keeps.
Qed.

(** X13. What the callback page stores is what [Home] restores when the
    root page loads next: for a payload parameter that parses to a
    payload with a non-empty email, the identity after the restore is
    that payload. This needs the codec to take the payload to a
    non-empty text and back. *)
Theorem callback_then_restore
    (raw : string) (parsed : option AuthPayload) (w : World)
    (h : HomeState) (j : list Effect) :
  raw <> "" -> JSON_parse raw = Normal parsed -> identified parsed ->
  JSON_stringify parsed <> "" -> JSON_parse (JSON_stringify parsed) = Normal parsed ->
  let store := localStorage (AuthCallbackPage_effect (Some raw) w).2 in
  store !! AUTH_STORAGE_KEY = Some (JSON_stringify parsed) /\
  user (home (restoreFromStorage (mkWorld h store j)).2) = parsed.
Proof.
  intros Nr P I Hs Hp. cbv zeta. rewrite AuthCallbackPage_effect_eq.
  apply String.eqb_neq in Nr. rewrite Nr, P.
  rewrite (proj2 (has_email_identified parsed) I). simpl.
  split; [apply lookup_insert_eq|].
  rewrite (restoreFromStorage_valid (JSON_stringify parsed) parsed); try assumption.
  - apply with_user_keeps.
  - simpl. apply lookup_insert_eq.
Qed.

Lemma auth_run_none_or_identified (evs : list AuthEvent) (w : World) :
  user (home w) = None \/ identified (user (home w)) ->
  user (home (auth_run evs w)) = None \/ identified (user (home (auth_run evs w))).
Proof.
  revert w. induction evs as [|ev evs IH]; intros w Hw; simpl; [exact Hw|].
  apply IH. destruct (auth_handler_user ev w) as [_ [E | H]]; [|right; exact H].
  rewrite E. exact Hw.
Qed.

Lemma connect_label_identified (u : option AuthPayload) :
  identified u -> connect_label u <> "Connect with Google".
Proof.
  intros (p & e & -> & He & Ne). unfold connect_label. rewrite He.
  apply String.eqb_neq in Ne. rewrite Ne. simpl. discriminate.
Qed.

(** X14. On a page that starts with nobody connected, after any sequence of
    identity events the identity is either absent or a payload with a
    non-empty email, never a payload without one. So the connect button
    reads "Connect with Google" exactly when there is no identity, and
    otherwise "Connected as" followed by the name, or by the email when
    the payload has no name. *)
Theorem connect_label_after_events (evs : list AuthEvent) (w : World) :
  user (home w) = None ->
  let u := user (home (auth_run evs w)) in
  (u = None \/ identified u) /\
  (connect_label u = "Connect with Google" <-> u = None) /\
  (forall p e, u = Some p -> email p = Some e ->
     connect_label u = "Connected as " +:+ default e (name p)).
Proof.
  intros Hw. cbv zeta.
  pose proof (auth_run_none_or_identified evs w (or_introl Hw)) as H.
  split; [exact H|]. split.
  - split.
    + intros L. destruct H as [H | H]; [exact H|].
      exfalso. exact (connect_label_identified _ H L).
    + intros ->. reflexivity.
  - intros p e Hu He. destruct H as [H | (p' & e' & Hp & He' & Ne)]; [congruence|].
    rewrite Hu in Hp. injection Hp as <-. rewrite He in He'. injection He' as <-.
    rewrite Hu. unfold connect_label. rewrite He.
    apply String.eqb_neq in Ne. rewrite Ne. reflexivity.
Qed.

(** ** The Enter key and the page as a whole *)

(** X15. Only the Enter key does anything in the input: any other key leaves
    the world as it is and the default action in place. Enter always
    prevents the default action, also when the submission is rejected,
    and otherwise does what [handleSubmit] does up to its [await]. *)
Theorem handleKeyDown_enter_only (event_key : string) (w : World) :
  (event_key <> "Enter" -> handleKeyDown event_key w = (Normal (false, None), w)) /\
  (event_key = "Enter" ->
     (handleKeyDown event_key w).2 = (handleSubmit_begin w).2 /\
     exists pending,
       (handleSubmit_begin w).1 = Normal pending /\
       (handleKeyDown event_key w).1 = Normal (true, pending)).
Proof.
  unfold handleKeyDown. split.
  - intros N. apply String.eqb_neq in N. rewrite N. reflexivity.
  - intros ->. simpl. unfold mbind, M_bind. rewrite handleSubmit_begin_eq.
    destruct (negb (truthy (Some (trim (instruction (home w))))) || isSubmitting (home w));
      simpl; eauto.
Qed.

Lemma auth_handler_keeps_submission (ev : AuthEvent) (w : World) :
  isSubmitting (home (auth_handler ev w).2) = isSubmitting (home w) /\
  fetches (journal (auth_handler ev w).2) = fetches (journal w).
Proof.
  assert (U : forall parsed,
            isSubmitting (home (with_user parsed w)) = isSubmitting (home w) /\
            fetches (journal (with_user parsed w)) = fetches (journal w)).
  { intros parsed. unfold with_user. simpl. rewrite fetches_app. simpl.
    rewrite app_nil_r. auto. }
  assert (W : forall msg e,
            isSubmitting (home (warned msg e w)) = isSubmitting (home w) /\
            fetches (journal (warned msg e w)) = fetches (journal w)).
  { intros msg e. unfold warned. simpl. rewrite fetches_app. simpl.
    rewrite app_nil_r. auto. }
  destruct ev as [ | o d | k v | b]; simpl.
  - destruct (restoreFromStorage_cases w)
      as [-> | [(raw & e & _ & _ & _ & ->) | (raw & parsed & _ & _ & _ & _ & ->)]];
      unfold snd; auto.
  - rewrite messageHandler_eq.
    destruct (negb (String.eqb o apiOrigin) || negb (has_email d)); simpl; [auto|].
    rewrite fetches_app. simpl. rewrite app_nil_r. auto.
  - destruct (storageHandler_cases k v w)
      as [-> | [(raw & e & _ & _ & _ & _ & ->) | (raw & parsed & _ & _ & _ & _ & _ & ->)]];
      unfold snd; auto.
  - destruct b; run_M; rewrite !fetches_app; simpl; rewrite !app_nil_r; auto.
Qed.

(** The invariant of the page: nothing in flight and the lock free, or
    one call in flight and the lock held. A submit request keeps it
    when the handler has closed over the state the cells hold. *)
Lemma page_step_single_flight (p : Page) (ev : PageEvent) :
  (in_flight p = 0 /\ isSubmitting (home (world p)) = false) \/
  (in_flight p = 1 /\ isSubmitting (home (world p)) = true) ->
  (ev = Submit -> shown p = home (world p)) ->
  ((in_flight (page_step p ev) = 0 /\
    isSubmitting (home (world (page_step p ev))) = false) \/
   (in_flight (page_step p ev) = 1 /\
    isSubmitting (home (world (page_step p ev))) = true)) /\
  length (fetches (journal (world (page_step p ev)))) + in_flight p <=
  length (fetches (journal (world p))) + in_flight (page_step p ev) + arrivals [ev].
Proof.
  intros Inv Fresh. destruct p as [w sh n]. simpl in Inv, Fresh.
  destruct ev as [text | | result | ev | ]; simpl.
  - unfold setInstruction, set_home. simpl. rewrite fetches_app. simpl.
    rewrite app_nil_r. split; [exact Inv | lia].
  - rewrite (Fresh eq_refl), begin_in_home, handleSubmit_begin_eq.
    destruct (negb (truthy (Some (trim (instruction (home w))))) || isSubmitting (home w))
      eqn:G; simpl.
    + split; [exact Inv | lia].
    + apply guard_accepts in G. destruct G as [_ G].
      destruct Inv as [[-> _] | [_ Hs]]; [|congruence].
      split; [right; auto|].
      rewrite fetches_app, length_app. simpl. lia.
  - destruct Inv as [[-> Hs] | [-> Hs]]; simpl.
    + split; [left; auto | lia].
    + rewrite handleSubmit_settle_eq. simpl.
      destruct (settle_keeps result w) as (_ & _ & _ & _ & F).
      rewrite handleSubmit_settle_eq in F. simpl in F. rewrite F.
      split; [|lia]. left. split; [reflexivity|].
      destruct result as [e | [[] [[d|] | e]]]; reflexivity.
  - destruct (auth_handler_keeps_submission ev w) as [-> ->].
    split; [exact Inv | lia].
  - split; [exact Inv | lia].
Qed.

Lemma arrivals_cons (ev : PageEvent) (evs : list PageEvent) :
  arrivals (ev :: evs) = arrivals [ev] + arrivals evs.
Proof. destruct ev; reflexivity. Qed.

Lemma page_run_single_flight (evs : list PageEvent) (p : Page) (fresh : bool) :
  (in_flight p = 0 /\ isSubmitting (home (world p)) = false) \/
  (in_flight p = 1 /\ isSubmitting (home (world p)) = true) ->
  (fresh = true -> shown p = home (world p)) ->
  submits_after_render fresh evs = true ->
  ((in_flight (page_run evs p) = 0 /\
    isSubmitting (home (world (page_run evs p))) = false) \/
   (in_flight (page_run evs p) = 1 /\
    isSubmitting (home (world (page_run evs p))) = true)) /\
  length (fetches (journal (world (page_run evs p)))) + in_flight p <=
  length (fetches (journal (world p))) + in_flight (page_run evs p) + arrivals evs.
Proof.
  revert p fresh. induction evs as [|ev evs IH]; intros p fresh Inv Fresh Ok.
  - simpl. split; [exact Inv | lia].
  - assert (S1 : ev = Submit -> shown p = home (world p)).
    { intros ->. simpl in Ok. apply andb_true_iff in Ok as [Ok _]. exact (Fresh Ok). }
    destruct (page_step_single_flight p ev Inv S1) as [Inv1 L1].
    assert (Next : exists fresh',
              submits_after_render fresh' evs = true /\
              (fresh' = true -> shown (page_step p ev) = home (world (page_step p ev)))).
    { destruct ev as [text | | result | ev | ]; simpl in Ok.
      - exists false. split; [exact Ok | discriminate].
      - apply andb_true_iff in Ok as [_ Ok]. exists false. split; [exact Ok | discriminate].
      - exists false. split; [exact Ok | discriminate].
      - exists false. split; [exact Ok | discriminate].
      - exists true. split; [exact Ok | reflexivity]. }
    destruct Next as (fresh' & Ok' & Fresh').
    destruct (IH (page_step p ev) fresh' Inv1 Fresh' Ok') as [Inv2 L2].
    unfold page_run in *. simpl fold_left.
    split; [exact Inv2|]. rewrite arrivals_cons. lia.
Qed.

(** X16. Whatever the user, the network and the identity channels do, in
    any order, on a freshly loaded page on which every submit request
    comes right after a render (so that the handler has closed over the
    state the cells hold): at most one call of [handleSubmit] is ever
    waiting for its answer, the lock [isSubmitting] is held exactly
    while one is, and the number of requests sent so far never exceeds
    the number of answers received by more than the one in flight. *)
Theorem page_single_flight (evs : list PageEvent) (store : gmap string string) :
  submits_after_render false evs = true ->
  let p := page_run evs (loaded store) in
  in_flight p <= 1 /\
  (in_flight p = 1 <-> isSubmitting (home (world p)) = true) /\
  length (fetches (journal (world p))) <= arrivals evs + in_flight p.
Proof.
  intros Ok. cbv zeta.
  destruct (page_run_single_flight evs (loaded store) false) as [Inv L];
    [left; split; reflexivity | discriminate | exact Ok |].
  simpl in L. split; [|split].
  - destruct Inv as [[-> _] | [-> _]]; lia.
  - destruct Inv as [[H1 H2] | [H1 H2]]; rewrite H1, H2; split; congruence.
  - lia.
Qed.

End Page.

(** ** The configured base URL *)

(** X17. The endpoints are built from the base URL without its final slash:
    a base URL configured with one slash at the end gives the same
    [/agent/run] and [/auth/google/login] addresses as the one without,
    and with nothing configured the local development address is used.
    Only one slash is removed. *)
Theorem base_url_final_slash (b : string) (w : World) (popup_opened : bool) :
  (forall env req,
     env = Some (b +:+ "/") \/ (env = Some b /\ strip_trailing_slash b = b) ->
     (handleSubmit_begin env w).1 = Normal (Some req) ->
     req_url req = b +:+ "/agent/run") /\
  (forall req,
     (handleSubmit_begin None w).1 = Normal (Some req) ->
     req_url req = "http://localhost:8000/agent/run") /\
  (forall req,
     (handleSubmit_begin (Some (b +:+ "//")) w).1 = Normal (Some req) ->
     req_url req = (b +:+ "/") +:+ "/agent/run") /\
  In (WindowOpen (b +:+ "/auth/google/login"))
     (journal (handleGoogleConnect (Some (b +:+ "/")) popup_opened w).2).
Proof.
  assert (B : forall env req,
            (handleSubmit_begin env w).1 = Normal (Some req) ->
            req_url req = strip_trailing_slash (API_BASE_URL env) +:+ "/agent/run").
  { intros env req. rewrite handleSubmit_begin_eq.
    destruct (negb (truthy (Some (trim (instruction (home w))))) || isSubmitting (home w));
      simpl; [discriminate|].
    intros [= <-]. reflexivity. }
  split; [|split; [|split]].
  - intros env req [-> | [-> Hb]] H; rewrite (B _ req H); unfold API_BASE_URL;
      simpl default.
    + rewrite strip_trailing_slash_app. reflexivity.
    + rewrite Hb. reflexivity.
  - intros req H. rewrite (B _ req H). reflexivity.
  - intros req H.
    assert (E : b +:+ "//" = (b +:+ "/") +:+ "/").
    { clear. induction b as [|c b IH]; [reflexivity|]. exact (f_equal (String c) IH). }
    rewrite E in H. rewrite (B _ req H). unfold API_BASE_URL. simpl default.
    rewrite strip_trailing_slash_app. reflexivity.
  - pose proof (handleGoogleConnect_opens (Some (b +:+ "/")) popup_opened w) as H.
    unfold API_BASE_URL in H. simpl default in H.
    rewrite strip_trailing_slash_app in H. exact H.
Qed.

(** ** The theme *)

(** X19. The theme chosen on the page is the theme of the next load: the
    persist effect stores the name of the theme, and the init effect on
    that store gives the same theme back, whatever the system prefers.
    Toggling always changes the theme, and toggling twice gives back
    the page as it was. *)
Theorem theme_choice_survives_reload (p q : ThemePage) (prefersDark : bool) :
  theme_store q = theme_store (theme_persist_effect p) ->
  theme (theme_init_effect prefersDark q) = theme p /\
  body_theme (theme_init_effect prefersDark q) = Some (theme_name (theme p)) /\
  theme (toggleTheme p) <> theme p /\
  toggleTheme (toggleTheme p) = p.
Proof.
  intros H. unfold theme_init_effect. rewrite H. unfold theme_persist_effect. simpl.
  rewrite lookup_insert_eq.
  destruct p as [[] bt st]; simpl; repeat split; discriminate.
Qed.

(** X20. Without a usable stored theme (no entry, or a text that is neither
    of the two names) the init effect follows the system: dark when it
    prefers dark, light otherwise. It sets [dataset.theme] to the theme
    it chose and never writes to the store. *)
Theorem theme_init_falls_back_to_system (q : ThemePage) (prefersDark : bool) :
  theme_store q !! THEME_STORAGE_KEY <> Some "light" ->
  theme_store q !! THEME_STORAGE_KEY <> Some "dark" ->
  theme (theme_init_effect prefersDark q) = (if prefersDark then dark else light) /\
  body_theme (theme_init_effect prefersDark q) =
    Some (theme_name (theme (theme_init_effect prefersDark q))) /\
  theme_store (theme_init_effect prefersDark q) = theme_store q.
Proof.
  intros H1 H2. unfold theme_init_effect.
  rewrite (bool_decide_eq_false_2 _ H1), (bool_decide_eq_false_2 _ H2).
  destruct prefersDark; repeat split.
Qed.

Lemma restore_depends_on_entry
    (parse : string -> outcome (option AuthPayload))
    (h : HomeState) (j : list Effect) (st1 st2 : gmap string string) :
  st1 !! AUTH_STORAGE_KEY = st2 !! AUTH_STORAGE_KEY ->
  home (restoreFromStorage parse (mkWorld h st1 j)).2 =
  home (restoreFromStorage parse (mkWorld h st2 j)).2.
Proof.
  intros H. rewrite !restoreFromStorage_eq. simpl. rewrite H.
  destruct (st2 !! AUTH_STORAGE_KEY) as [raw|]; [|reflexivity].
  destruct (String.eqb raw ""); [reflexivity|].
  destruct (parse raw) as [parsed | e]; [|reflexivity].
  destruct (has_email parsed); reflexivity.
Qed.

(** X21. The theme and the identity are kept under different keys of the
    same store and do not disturb each other: persisting the theme
    leaves the identity entry, so the next restore finds the same
    identity; an accepted message and the callback page leave the theme
    entry, so the next load shows the same theme. *)
Theorem theme_and_identity_entries_independent
    (env : option string) (origin_of : string -> string)
    (parse : string -> outcome (option AuthPayload))
    (stringify : option AuthPayload -> string)
    (p : ThemePage) (w : World) (h : HomeState) (j : list Effect)
    (o : string) (d : option AuthPayload) (payload : option string)
    (t : Theme) (bt : option string) (prefersDark : bool) :
  theme_store (theme_persist_effect p) !! AUTH_STORAGE_KEY =
    theme_store p !! AUTH_STORAGE_KEY /\
  home (restoreFromStorage parse (mkWorld h (theme_store (theme_persist_effect p)) j)).2 =
    home (restoreFromStorage parse (mkWorld h (theme_store p) j)).2 /\
  theme (theme_init_effect prefersDark
           (mkThemePage t bt (localStorage (messageHandler env origin_of stringify o d w).2)))
    = theme (theme_init_effect prefersDark (mkThemePage t bt (localStorage w))) /\
  theme (theme_init_effect prefersDark
           (mkThemePage t bt
              (localStorage (AuthCallbackPage_effect parse stringify payload w).2)))
    = theme (theme_init_effect prefersDark (mkThemePage t bt (localStorage w))).
Proof.
  assert (K : THEME_STORAGE_KEY <> AUTH_STORAGE_KEY) by discriminate.
  assert (T : forall st1 st2 : gmap string string,
            st1 !! THEME_STORAGE_KEY = st2 !! THEME_STORAGE_KEY ->
            theme (theme_init_effect prefersDark (mkThemePage t bt st1)) =
            theme (theme_init_effect prefersDark (mkThemePage t bt st2))).
  { intros st1 st2 H. unfold theme_init_effect. simpl. rewrite H. reflexivity. }
  split; [|split; [|split]].
  - unfold theme_persist_effect. simpl. apply lookup_insert_ne. exact K.
  - apply restore_depends_on_entry.
    unfold theme_persist_effect. simpl. apply lookup_insert_ne. exact K.
  - apply T. rewrite messageHandler_eq.
    destruct (negb (String.eqb o (apiOrigin env origin_of)) || negb (has_email d));
      simpl; [reflexivity|].
    apply lookup_insert_ne. congruence.
  - apply T. rewrite AuthCallbackPage_effect_eq. simpl.
    destruct payload as [raw|]; [|reflexivity].
    destruct (String.eqb raw ""); [reflexivity|].
    destruct (parse raw) as [parsed | e]; [|reflexivity].
    destruct (has_email parsed); simpl; [|reflexivity].
    apply lookup_insert_ne. congruence.
Qed.

(** ** Examples *)

Example trim_keeps_inner_spaces : trim "  a b  " = "a b".
Proof. reflexivity. Qed.

Example trim_tab_and_line_feed :
  trim (String (Ascii.ascii_of_nat 9) (String (Ascii.ascii_of_nat 10) "x ")) = "x".
Proof. reflexivity. Qed.

Example strip_trailing_slash_once :
  strip_trailing_slash "http://localhost:8000/" = "http://localhost:8000" /\
  strip_trailing_slash "http://localhost:8000" = "http://localhost:8000" /\
  strip_trailing_slash "a//" = "a/".
Proof. repeat split. Qed.

Example first_match_wins :
  rs_status (merge_step [mkStep "Input" error None; mkStep "Input" completed None]
                        (mkTemplate "Input" "Input" "Instruction" MailIcon)) = error.
Proof. reflexivity. Qed.

(** The welcome instruction answered by the completed body: four
    completed stages, status completed, the draft shown, the input
    cleared and the lock released. *)
Example scenario_completed :
  let final := (handleSubmit None
                  (fun _ => Resolved (mkHttp true (Normal (Some completed_body))))
                  (typed welcome)).2 in
  map rs_status (workflowSteps (serverSteps (home final))) =
    [completed; completed; completed; completed] /\
  currentStatus (home final) = completed /\
  generatedEmail (home final) =
    Some (mkDraft "john@example.com" None "Welcome!" "Hi John") /\
  instruction (home final) = "" /\
  isSubmitting (home final) = false /\
  length (fetches (journal final)) = 1.
Proof. repeat split. Qed.

(** The same instruction with the transport failing. *)
Example scenario_transport_failure :
  let final := (handleSubmit None (fun _ => Rejected (JsError "Failed to fetch"))
                  (typed welcome)).2 in
  currentStatus (home final) = error /\
  serverSteps (home final) = optimistic_steps /\
  submitError (home final) = Some "Failed to fetch" /\
  isSubmitting (home final) = false.
Proof. repeat split. Qed.

(** A 2xx response whose body is [null] ends in the [catch] branch. *)
Example scenario_null_body :
  let final := (handleSubmit None (fun _ => Resolved (mkHttp true (Normal None)))
                  (typed welcome)).2 in
  currentStatus (home final) = error /\
  submitError (home final) = Some null_steps_message /\
  isSubmitting (home final) = false.
Proof. repeat split. Qed.

(** The body of the scenario of the specification: two lines. *)
Example split_lines_two_lines :
  split_lines ("Hi John" +:+ String (Ascii.ascii_of_nat 10) "Welcome aboard.") =
  ["Hi John"; "Welcome aboard."] /\
  split_lines "" = [""] /\
  split_lines (String (Ascii.ascii_of_nat 10) "") = [""; ""].
Proof. repeat split. Qed.

Example connect_label_examples :
  connect_label None = "Connect with Google" /\
  connect_label (Some blank_email) = "Connect with Google" /\
  connect_label (Some alice) = "Connected as Alice" /\
  connect_label (Some bob) = "Connected as bob@example.com".
Proof. repeat split. Qed.

(** White space beyond ASCII: an ideographic space, a line separator
    and a byte order mark are trimmed like a blank. *)
Example trim_unicode_spaces :
  trim (utf8_string [12288; 97; 8232; 65279]%N) = "a" /\
  trim (utf8_string [12288; 8192; 160; 9]%N) = "" /\
  submit_disabled (home (typed (utf8_string [12288]%N))) = true.
Proof. repeat split. Qed.

(** Two submit requests served by the handler of one render: two calls
    are in flight; with a render between them, one. *)
Example two_submits_in_one_render :
  in_flight (page_run None sample_origin sample_parse sample_stringify
               [Typed welcome; Rendered; Submit; Submit] (loaded ∅)) = 2 /\
  in_flight (page_run None sample_origin sample_parse sample_stringify
               [Typed welcome; Rendered; Submit; Rendered; Submit] (loaded ∅)) = 1.
Proof. split; reflexivity. Qed.

(** ** The theorems at concrete inputs *)

(** C2, amended, at a render showing a blank instruction and at two
    calls with the welcome instruction and a render between them. *)
Lemma handleSubmit_guard_on_render_witness :
  (trim "   " = "" /\
   handleSubmit_begin_in None (home (typed "   ")) (typed welcome) =
     (Normal None, typed welcome)) /\
  (trim welcome <> "" /\
   fetches (journal
     (handleSubmit_begin_in None
        (home (handleSubmit_begin_in None (home (typed welcome)) (typed welcome)).2)
        (handleSubmit_begin_in None (home (typed welcome)) (typed welcome)).2).2) =
   [mkRequest "http://localhost:8000/agent/run" welcome None None]).
Proof.
  split.
  - split; [reflexivity|].
    apply (proj1 (handleSubmit_guard_on_render None (home (typed "   ")) (typed welcome))).
    left. reflexivity.
  - split; [vm_compute; discriminate|].
    apply (proj2 (proj2 (handleSubmit_guard_on_render None (home (typed welcome))
                           (typed welcome)))).
    + vm_compute. discriminate.
    + reflexivity.
Defined.

(** C2 as the specification words it fails: two calls of the handler
    of one and the same render both pass the guard, although the first
    has a submission in flight when the second is made, and two
    requests are sent. *)
Lemma same_render_submits_twice :
  let w1 := (handleSubmit_begin_in None (home (typed welcome)) (typed welcome)).2 in
  let second := handleSubmit_begin_in None (home (typed welcome)) w1 in
  isSubmitting (home w1) = true /\
  second <> (Normal None, w1) /\
  fetches (journal second.2) =
    [ mkRequest "http://localhost:8000/agent/run" welcome None None;
      mkRequest "http://localhost:8000/agent/run" welcome None None ].
Proof.
  cbv zeta. split; [reflexivity|]. split; [|reflexivity].
  vm_compute. discriminate.
Qed.

(** C3 at the completed body. *)
Lemma handleSubmit_success_witness :
  serverSteps (home (handleSubmit_settle
                       (Resolved (mkHttp true (Normal (Some completed_body))))
                       (begun None (typed welcome))).2) =
  [ mkStep "Input" completed None; mkStep "Processing" completed None;
    mkStep "Sending" completed None; mkStep "Completed" completed None ].
Proof.
  apply (proj1 (proj2 (proj2
           (handleSubmit_success completed_body (begun None (typed welcome)))))).
  reflexivity.
Defined.

(** C3 as the specification words it fails: a 2xx response whose body
    is [null], and one whose body is not JSON, leave the optimistic
    snapshot in place, set the status to error and do not clear the
    input. *)
Lemma success_status_with_unusable_body :
  let null_body :=
    (handleSubmit None (fun _ => Resolved (mkHttp true (Normal None)))
       (typed welcome)).2 in
  let no_json :=
    (handleSubmit None
       (fun _ => Resolved (mkHttp true (Threw (JsError "Unexpected token in JSON"))))
       (typed welcome)).2 in
  (serverSteps (home null_body) = optimistic_steps /\
   currentStatus (home null_body) = error /\
   instruction (home null_body) <> "") /\
  (serverSteps (home no_json) = optimistic_steps /\
   currentStatus (home no_json) = error /\
   submitError (home no_json) = Some "Unexpected token in JSON" /\
   instruction (home no_json) <> "").
Proof.
  cbv zeta. repeat split; vm_compute; discriminate.
Qed.

(** C4, amended, at the refused body. *)
Lemma handleSubmit_nonsuccess_witness :
  trim welcome <> "" /\
  submitError (home (handleSubmit_settle
                       (Resolved (mkHttp false (Normal (Some refused_body))))
                       (begun None (typed welcome))).2) = Some "Recipient rejected" /\
  serverSteps (home (handleSubmit None
                       (fun _ => Resolved (mkHttp false (Normal (Some refused_body))))
                       (typed welcome)).2) = optimistic_steps.
Proof.
  split; [vm_compute; discriminate|]. split.
  - apply (proj1 (proj2 (handleSubmit_nonsuccess None (Some refused_body)
                           (begun None (typed welcome)))) refused_body);
      reflexivity.
  - apply (proj1 (proj2 (proj2 (proj2
             (handleSubmit_nonsuccess None (Some refused_body) (typed welcome)))))).
    + vm_compute. discriminate.
    + reflexivity.
Defined.

(** C4 as the specification words it fails: the non-2xx body carries
    steps, and the step list after the call is the optimistic snapshot,
    not those steps. *)
Lemma nonsuccess_ignores_server_steps :
  let final := (handleSubmit None
                  (fun _ => Resolved (mkHttp false (Normal (Some refused_body))))
                  (typed welcome)).2 in
  resp_steps refused_body = Some refused_steps /\
  serverSteps (home final) = optimistic_steps /\
  serverSteps (home final) <> refused_steps.
Proof.
  cbv zeta. split; [reflexivity|]. split; [reflexivity|].
  vm_compute. discriminate.
Qed.

(** C5 at the welcome instruction. *)
Lemma handleSubmit_optimistic_witness :
  trim welcome <> "" /\
  home (handleSubmit_begin None (typed welcome)).2 =
    mkHome welcome optimistic_steps in_progress true None None None None.
Proof.
  split; [vm_compute; discriminate|].
  apply (proj1 (proj2 (handleSubmit_optimistic None (typed welcome)
                         ltac:(vm_compute; discriminate) eq_refl))).
Defined.


(** C7 at a message of the service carrying alice. *)
Lemma messageHandler_accepts_iff_witness :
  user (home (messageHandler None sample_origin sample_stringify
                "http://localhost:8000" (Some alice) empty_world).2) = Some alice /\
  (messageHandler None sample_origin sample_stringify
     "http://evil.example" (Some alice) empty_world).2 = empty_world.
Proof.
  split.
  - apply (proj1 (proj2 (proj2 (messageHandler_accepts_iff None sample_origin
             sample_stringify "http://localhost:8000" (Some alice) empty_world)))).
    + reflexivity.
    + exists alice, "alice@example.com". repeat split. discriminate.
  - apply (proj1 (proj2 (proj2 (proj2 (messageHandler_accepts_iff None sample_origin
             sample_stringify "http://evil.example" (Some alice) empty_world))))).
    intros [H _]. vm_compute in H. discriminate.
Defined.

(** C9, amended: alice stays connected, or is replaced by bob, through
    a foreign message, broken cross-tab text, a restore, a blocked popup
    and a cross-tab change to bob. *)
Lemma identity_never_destroyed_witness :
  identified (user (home alice_world)) /\
  identified (user (home (auth_run None sample_origin sample_parse sample_stringify
     [ Message "http://evil.example" (Some bob);
       StorageChange (Some AUTH_STORAGE_KEY) (Some "{oops");
       OnLoad;
       Connect false;
       StorageChange (Some AUTH_STORAGE_KEY) (Some (sample_stringify (Some bob))) ]
     alice_world))).
Proof.
  assert (H : identified (user (home alice_world))).
  { exists alice, "alice@example.com". repeat split. discriminate. }
  split; [exact H|].
  apply (proj1 (proj2 (identity_never_destroyed None sample_origin sample_parse
                         sample_stringify OnLoad _ alice_world))).
  exact H.
Defined.

(** C9 as the specification words it fails: stored text and cross-tab
    text that parse to a payload without a non-empty email are ignored
    and nothing is logged. *)
Lemma invalid_payload_is_not_logged :
  sample_parse "{}" = Normal (Some no_fields) /\
  has_email (Some no_fields) = false /\
  restoreFromStorage sample_parse (stored_world "{}") = (Normal tt, stored_world "{}") /\
  warnings (journal (restoreFromStorage sample_parse (stored_world "{}")).2) = [] /\
  warnings (journal (storageHandler sample_parse (Some AUTH_STORAGE_KEY)
                       (Some (sample_stringify (Some blank_email))) alice_world).2) = [].
Proof. repeat split. Qed.

(** C10 at the serialisation of bob. *)
Lemma callback_stores_valid_payload_then_navigates_witness :
  sample_parse (sample_stringify (Some bob)) = Normal (Some bob) /\
  identified (Some bob) /\
  localStorage (AuthCallbackPage_effect sample_parse sample_stringify
                  (Some (sample_stringify (Some bob))) empty_world).2 =
  <[AUTH_STORAGE_KEY := sample_stringify (Some bob)]> (localStorage empty_world).
Proof.
  assert (I : identified (Some bob)).
  { exists bob, "bob@example.com". repeat split. discriminate. }
  split; [reflexivity|]. split; [exact I|].
  destruct (callback_stores_valid_payload_then_navigates sample_parse sample_stringify
              (Some (sample_stringify (Some bob))) empty_world)
    as (_ & _ & effects & _ & Hvalid & _).
  apply (Hvalid (sample_stringify (Some bob)) (Some bob)).
  - reflexivity.
  - vm_compute. discriminate.
  - reflexivity.
  - exact I.
Defined.

(** ** The further properties at concrete inputs *)

Lemma workflowSteps_irrelevant_step_witness :
  workflowSteps ([mkStep "Input" completed None] ++
                 mkStep "Archive" error None :: [mkStep "Sending" in_progress None]) =
  workflowSteps ([mkStep "Input" completed None] ++ [mkStep "Sending" in_progress None]) /\
  workflowSteps ([mkStep "Input" completed None] ++ mkStep "Input" error None :: []) =
  workflowSteps ([mkStep "Input" completed None] ++ []).
Proof.
  split.
  - apply workflowSteps_irrelevant_step. left.
    intros t [<- | [<- | [<- | [<- | []]]]]; discriminate.
  - apply workflowSteps_irrelevant_step. right.
    exists (mkStep "Input" completed None). split; [left; reflexivity | reflexivity].
Defined.

Lemma workflowSteps_order_irrelevant_witness :
  workflowSteps optimistic_steps = workflowSteps (rev optimistic_steps).
Proof.
  apply workflowSteps_order_irrelevant.
  - apply (bool_decide_unpack (NoDup (map step_name optimistic_steps))).
    vm_compute. exact I.
  - apply Permutation_rev.
Defined.

Lemma submit_button_agrees_with_guard_witness :
  submit_disabled (home (typed "   ")) = true /\
  handleSubmit_begin None (typed "   ") = (Normal None, typed "   ").
Proof.
  split; [reflexivity|].
  apply (proj1 (submit_button_agrees_with_guard None (typed "   "))). reflexivity.
Defined.

Lemma handleSubmit_rejects_blank_or_in_flight_witness :
  handleSubmit_begin None (typed "   ") = (Normal None, typed "   ").
Proof.
  apply (proj2 (handleSubmit_rejects_blank_or_in_flight None (typed "   "))).
  right. exists [32; 32; 32]%N. split; reflexivity.
Defined.

Lemma handleSubmit_retry_after_failure_witness :
  trim welcome <> "" /\
  fetches (journal
    (handleSubmit None (fun _ => Resolved (mkHttp true (Normal (Some completed_body))))
       (handleSubmit None (fun _ => Rejected NonError) (typed welcome)).2).2) =
  [ mkRequest "http://localhost:8000/agent/run" welcome None None;
    mkRequest "http://localhost:8000/agent/run" welcome None None ].
Proof.
  assert (G : trim welcome <> "") by (vm_compute; discriminate).
  split; [exact G|].
  apply (proj1 (handleSubmit_retry_after_failure None (fun _ => Rejected NonError)
                  (fun _ => Resolved (mkHttp true (Normal (Some completed_body))))
                  (typed welcome) G eq_refl)).
  intros d. discriminate.
Defined.

Lemma storageHandler_reads_only_witness :
  user (home (storageHandler sample_parse (Some AUTH_STORAGE_KEY)
                (Some (sample_stringify (Some bob))) alice_world).2) = Some bob.
Proof.
  apply (proj1 (proj2 (proj2 (storageHandler_reads_only sample_parse
           (Some AUTH_STORAGE_KEY) (Some (sample_stringify (Some bob))) alice_world)))
           (sample_stringify (Some bob)) (Some bob)).
  - reflexivity.
  - reflexivity.
  - vm_compute. discriminate.
  - reflexivity.
  - exists bob, "bob@example.com". repeat split. discriminate.
Defined.

Lemma restoreFromStorage_reads_only_witness :
  user (home (restoreFromStorage sample_parse
                (stored_world (sample_stringify (Some alice)))).2) = Some alice /\
  (restoreFromStorage sample_parse empty_world).2 = empty_world.
Proof.
  split.
  - apply (proj2 (proj2 (proj2 (restoreFromStorage_reads_only sample_parse
             (stored_world (sample_stringify (Some alice))))))
             (sample_stringify (Some alice)) (Some alice)).
    + reflexivity.
    + vm_compute. discriminate.
    + reflexivity.
    + exists alice, "alice@example.com". repeat split. discriminate.
  - apply (proj1 (proj2 (restoreFromStorage_reads_only sample_parse empty_world))).
    left. reflexivity.
Defined.

Lemma handleGoogleConnect_popup_witness :
  authError (home (handleGoogleConnect None false alice_world).2) =
    Some "Please allow pop-ups to connect your Google account." /\
  home (handleGoogleConnect None true alice_world).2 = home alice_world.
Proof.
  split.
  - apply (proj2 (proj2 (proj2 (proj2 (handleGoogleConnect_popup None false alice_world))))).
    reflexivity.
  - apply (proj1 (proj2 (proj2 (proj2 (handleGoogleConnect_popup None true alice_world))))).
    reflexivity.
Defined.

Lemma popup_error_cleared_by_message_only_witness :
  authError (home (messageHandler None sample_origin sample_stringify
                     "http://localhost:8000" (Some alice)
                     (handleGoogleConnect None false empty_world).2).2) = None.
Proof.
  apply (proj1 (proj2 (popup_error_cleared_by_message_only None sample_origin
           sample_parse sample_stringify "http://localhost:8000" (Some alice)
           None None empty_world))).
  - reflexivity.
  - exists alice, "alice@example.com". repeat split. discriminate.
Defined.

Lemma identity_survives_reload_witness :
  sample_parse (sample_stringify (Some alice)) = Normal (Some alice) /\
  user (home (restoreFromStorage sample_parse
     (mkWorld initial_home
        (localStorage (messageHandler None sample_origin sample_stringify
                         "http://localhost:8000" (Some alice) empty_world).2) [])).2)
  = Some alice.
Proof.
  split; [reflexivity|].
  apply (proj1 (identity_survives_reload None sample_origin sample_parse sample_stringify
                  "http://localhost:8000" (Some alice) empty_world empty_world
                  initial_home [] eq_refl
                  ltac:(exists alice, "alice@example.com"; repeat split; discriminate)
                  ltac:(vm_compute; discriminate) eq_refl)).
Defined.

Lemma callback_then_restore_witness :
  user (home (restoreFromStorage sample_parse
     (mkWorld initial_home
        (localStorage (AuthCallbackPage_effect sample_parse sample_stringify
                         (Some (sample_stringify (Some bob))) empty_world).2) [])).2)
  = Some bob.
Proof.
  apply (proj2 (callback_then_restore sample_parse sample_stringify
                  (sample_stringify (Some bob)) (Some bob) empty_world initial_home []
                  ltac:(vm_compute; discriminate) eq_refl
                  ltac:(exists bob, "bob@example.com"; repeat split; discriminate)
                  ltac:(vm_compute; discriminate) eq_refl)).
Defined.

Lemma connect_label_after_events_witness :
  connect_label (user (home (auth_run None sample_origin sample_parse sample_stringify
     [ StorageChange (Some AUTH_STORAGE_KEY) (Some (sample_stringify (Some blank_email)));
       Message "http://localhost:8000" (Some alice) ] empty_world)))
  = "Connected as Alice".
Proof.
  apply (proj2 (proj2 (connect_label_after_events None sample_origin sample_parse
           sample_stringify
           [ StorageChange (Some AUTH_STORAGE_KEY)
               (Some (sample_stringify (Some blank_email)));
             Message "http://localhost:8000" (Some alice) ] empty_world eq_refl))
           alice "alice@example.com"); reflexivity.
Defined.

Lemma handleKeyDown_enter_only_witness :
  handleKeyDown None "a" (typed welcome) = (Normal (false, None), typed welcome) /\
  (handleKeyDown None "Enter" (typed welcome)).2 =
    (handleSubmit_begin None (typed welcome)).2.
Proof.
  split.
  - apply (proj1 (handleKeyDown_enter_only None "a" (typed welcome))). discriminate.
  - apply (proj2 (handleKeyDown_enter_only None "Enter" (typed welcome))). reflexivity.
Defined.

Lemma base_url_final_slash_witness :
  req_url (request_of (Some "https://agent.example/") (home (typed welcome))) =
    "https://agent.example/agent/run".
Proof.
  apply (proj1 (base_url_final_slash "https://agent.example" (typed welcome) true)
           (Some "https://agent.example/")).
  - left. reflexivity.
  - reflexivity.
Defined.

Lemma theme_choice_survives_reload_witness :
  theme (theme_init_effect false
           (mkThemePage light None
              (theme_store (theme_persist_effect
                 (toggleTheme (mkThemePage light (Some "light") ∅)))))) = dark.
Proof.
  apply (theme_choice_survives_reload
           (toggleTheme (mkThemePage light (Some "light") ∅))
           (mkThemePage light None
              (theme_store (theme_persist_effect
                 (toggleTheme (mkThemePage light (Some "light") ∅)))))
           false).
  reflexivity.
Defined.

Lemma theme_init_falls_back_to_system_witness :
  theme (theme_init_effect true
           (mkThemePage light None {[ THEME_STORAGE_KEY := "sepia" ]})) = dark.
Proof.
  apply (theme_init_falls_back_to_system
           (mkThemePage light None {[ THEME_STORAGE_KEY := "sepia" ]}) true).
  - vm_compute. discriminate.
  - vm_compute. discriminate.
Defined.

Lemma page_single_flight_witness :
  in_flight (page_run None sample_origin sample_parse sample_stringify
     [ Typed welcome; Rendered; Submit; Rendered; Submit;
       Arrived (Rejected NonError); Rendered; Submit ] (loaded ∅)) <= 1.
Proof.
  apply (page_single_flight None sample_origin sample_parse sample_stringify
           [ Typed welcome; Rendered; Submit; Rendered; Submit;
             Arrived (Rejected NonError); Rendered; Submit ] ∅).
  reflexivity.
Defined.
